(** * Book CSV Editor: the engine of [src/App.js], embedded and verified

    The repository holds one React component in two revisions,
    [src/src/App.js] and [src/unnamed/part_000].  Both share the codec
    ([booksToCSV], the [complete] callback of [handleFileUpload]), the
    query pipeline ([filteredData]) and the pager; they differ in
    [handleCellEdit] and [isCellEdited].  React state is modelled as a
    record that every handler maps to its successor; a handler whose
    updater raises a JavaScript exception yields [Throw].

    Modelling conventions, used throughout:
    - JavaScript strings are [string] (sequences of 8-bit characters);
      [toLowerCase] folds the ASCII letters only.
    - JavaScript numbers are mathematical integers [Z], with [None]
      standing for [NaN] where a conversion can fail.  Fractions,
      exponents and infinities are outside the model, as is the loss of
      precision of doubles beyond 2^53.
    - A JavaScript object is a finite map from property names to values;
      an array is a list of cells, a cell being a hole, [undefined] or
      an object. *)

From Stdlib Require Import ZArith Ascii String List Bool Lia.
From Stdlib Require Import Decimal DecimalString DecimalPos DecimalN DecimalZ.
From Stdlib Require Import Sorting.Sorted Sorting.Permutation.
From stdpp Require Import base option list strings gmap fin_maps.

Local Open Scope Z_scope.

(** ** JavaScript values and primitive operations *)

Inductive value : Type :=
| VUndef
| VNum (z : Z)
| VStr (s : string).

#[global] Instance value_eq_dec : EqDecision value.
Proof. solve_decision. Defined.

Inductive js_error : Type :=
| TypeError.

Inductive outcome (A : Type) : Type :=
| Ok (a : A)
| Throw (e : js_error).
Arguments Ok {A} a.
Arguments Throw {A} e.

#[global] Instance outcome_bind : MBind outcome := fun A B k m =>
  match m with
  | Ok a => k a
  | Throw e => Throw e
  end.

#[global] Instance outcome_ret : MRet outcome := fun A a => Ok a.

(** [String(v)]. *)
Definition ToString (v : value) : string :=
  match v with
  | VUndef => "undefined"
  | VNum z => NilZero.string_of_int (Z.to_int z)
  | VStr s => s
  end.

(** Truthiness, as tested by [if (x)], [x || y] and [filter(Boolean)]. *)
Definition truthy (v : value) : bool :=
  match v with
  | VUndef => false
  | VNum z => negb (z =? 0)
  | VStr s => negb (String.eqb s "")
  end.

(** [x || y]. *)
Definition js_or (x y : value) : value := if truthy x then x else y.

(** [x === y] on the values of the model. *)
Definition strict_eq (x y : value) : bool := bool_decide (x = y).

(** [s.toLowerCase()], on ASCII. *)
Definition lower_ascii (a : ascii) : ascii :=
  let n := N_of_ascii a in
  if ((65 <=? n) && (n <=? 90))%N then ascii_of_N (n + 32) else a.

Fixpoint toLowerCase (s : string) : string :=
  match s with
  | EmptyString => EmptyString
  | String a s' => String (lower_ascii a) (toLowerCase s')
  end.

(** [s.includes(t)]. *)
Fixpoint startsWith (s t : string) {struct t} : bool :=
  match t, s with
  | EmptyString, _ => true
  | String b t', String a s' => Ascii.eqb a b && startsWith s' t'
  | String _ _, EmptyString => false
  end.

Fixpoint includes (s t : string) : bool :=
  startsWith s t ||
  match s with
  | EmptyString => false
  | String _ s' => includes s' t
  end.

(** White space skipped by [parseInt] and trimmed by [ToNumber]. *)
Definition is_space (a : ascii) : bool :=
  let n := N_of_ascii a in
  ((9 <=? n) && (n <=? 13) || (n =? 32) || (n =? 160))%N.

Fixpoint trimStart (s : string) : string :=
  match s with
  | String a s' => if is_space a then trimStart s' else s
  | EmptyString => EmptyString
  end.

(** The value of a character as a digit of the given radix. *)
Definition digit_of (radix : N) (a : ascii) : option N :=
  let n := N_of_ascii a in
  let d := if ((48 <=? n) && (n <=? 57))%N then Some (n - 48)%N
           else if ((97 <=? n) && (n <=? 122))%N then Some (n - 87)%N
           else if ((65 <=? n) && (n <=? 90))%N then Some (n - 55)%N
           else None in
  match d with
  | Some k => if (k <? radix)%N then Some k else None
  | None => None
  end.

(** The longest prefix of digits, read left to right; the flag tells
    whether any digit was read. *)
Fixpoint read_digits (radix : N) (s : string) (acc : N) (seen : bool) : N * bool :=
  match s with
  | String a s' =>
      match digit_of radix a with
      | Some k => read_digits radix s' (acc * radix + k)%N true
      | None => (acc, seen)
      end
  | EmptyString => (acc, seen)
  end.

Definition strip_sign (s : string) : bool * string :=
  match s with
  | String "-" s' => (true, s')
  | String "+" s' => (false, s')
  | _ => (false, s)
  end.

Definition strip_hex_prefix (s : string) : N * string :=
  match s with
  | String "0" (String "x" s') => (16%N, s')
  | String "0" (String "X" s') => (16%N, s')
  | _ => (10%N, s)
  end.

Definition apply_sign (neg : bool) (n : N) : Z :=
  if neg then - Z.of_N n else Z.of_N n.

(** [parseInt(s)] with no radix argument; [None] is [NaN]. *)
Definition parseInt_string (s : string) : option Z :=
  let '(neg, s1) := strip_sign (trimStart s) in
  let '(radix, s2) := strip_hex_prefix s1 in
  match read_digits radix s2 0%N false with
  | (n, true) => Some (apply_sign neg n)
  | (_, false) => None
  end.

(** [parseInt(v)]: the argument is first converted with [String]. *)
Definition parseInt (v : value) : option Z := parseInt_string (ToString v).

(** [parseInt(v) || d]: [NaN] and [0] are falsy. *)
Definition parseInt_or (v : value) (d : Z) : Z :=
  match parseInt v with
  | Some z => if z =? 0 then d else z
  | None => d
  end.

Fixpoint all_space (s : string) : bool :=
  match s with
  | String a s' => is_space a && all_space s'
  | EmptyString => true
  end.

(** The digits of an integer literal of the given radix, followed by
    white space only. *)
Fixpoint read_literal (radix : N) (s : string) (acc : N) (seen : bool) : option N :=
  match s with
  | String a s' =>
      match digit_of radix a with
      | Some k => read_literal radix s' (acc * radix + k)%N true
      | None => if seen && all_space s then Some acc else None
      end
  | EmptyString => if seen then Some acc else None
  end.

(** The prefixes of hexadecimal, octal and binary literals. *)
Definition strip_radix_prefix (s : string) : option (N * string) :=
  match s with
  | String "0" (String "x" s') | String "0" (String "X" s') => Some (16%N, s')
  | String "0" (String "o" s') | String "0" (String "O" s') => Some (8%N, s')
  | String "0" (String "b" s') | String "0" (String "B" s') => Some (2%N, s')
  | _ => None
  end.

(** [ToNumber] on strings, for the integer literals: white space is
    trimmed, the empty string is [0], then either a radix prefix and
    digits, or an optional sign and decimal digits.  A string that is
    no such literal reads as [NaN]; the literal forms that do not
    denote integers in this way (fractions, exponents, [Infinity]) are
    outside the model. *)
Definition StringToNumber (s : string) : option Z :=
  let t := trimStart s in
  match t with
  | EmptyString => Some 0
  | _ =>
      match strip_radix_prefix t with
      | Some (radix, t1) => Z.of_N <$> read_literal radix t1 0%N false
      | None =>
          let '(neg, t1) := strip_sign t in
          apply_sign neg <$> read_literal 10 t1 0%N false
      end
  end.

Definition ToNumber (v : value) : option Z :=
  match v with
  | VUndef => None
  | VNum z => Some z
  | VStr s => StringToNumber s
  end.

(** [x < y]: two strings compare by code units, anything else
    numerically, and every comparison with [NaN] is false. *)
Definition js_lt (x y : value) : bool :=
  match x, y with
  | VStr s, VStr t => String.ltb s t
  | _, _ =>
      match ToNumber x, ToNumber y with
      | Some a, Some b => a <? b
      | _, _ => false
      end
  end.

Definition js_gt (x y : value) : bool := js_lt y x.

(** [x <= y] is "not [y < x]" unless a [NaN] is involved. *)
Definition js_le (x y : value) : bool :=
  match x, y with
  | VStr s, VStr t => negb (String.ltb t s)
  | _, _ =>
      match ToNumber x, ToNumber y with
      | Some a, Some b => a <=? b
      | _, _ => false
      end
  end.

Definition js_ge (x y : value) : bool := js_le y x.

(** ** Objects and arrays *)

(** A record of the table: an object with the properties [id], [Title],
    [Author], [Genre], [PublishedYear] and [ISBN]. *)
Abbreviation row := (gmap string value).

Inductive cell : Type :=
| Hole
| Undef
| Obj (r : row).

#[global] Instance cell_eq_dec : EqDecision cell.
Proof. solve_decision. Defined.

Abbreviation array := (list cell).

(** [r[k]] on an object. *)
Definition get (r : row) (k : string) : value := default VUndef (r !! k).

(** [a[i]]: the object stored at [i], [None] for [undefined] (a hole, an
    [undefined] element, an index past the end). *)
Definition arr_get (a : array) (i : nat) : option row :=
  match a !! i with
  | Some (Obj r) => Some r
  | _ => None
  end.

(** [o[k]] where [o] may be [undefined]: reading a property of
    [undefined] raises a [TypeError]. *)
Definition get_prop (o : option row) (k : string) : outcome value :=
  match o with
  | Some r => Ok (get r k)
  | None => Throw TypeError
  end.

(** [o?.[k]]. *)
Definition get_opt (o : option row) (k : string) : value :=
  match o with
  | Some r => get r k
  | None => VUndef
  end.

(** [{ ...o }]: spreading [undefined] gives the empty object. *)
Definition spread_obj (o : option row) : row := default ∅ o.

(** [[...a]]: the iterator reads holes as [undefined]. *)
Definition spread_array (a : array) : array :=
  (fun c => match c with Hole => Undef | _ => c end) <$> a.

(** [a[i] = c]: a write past the end extends the array, leaving holes. *)
Definition arr_set (i : nat) (c : cell) (a : array) : array :=
  if bool_decide (i < length a)%nat then <[i := c]> a
  else a ++ replicate (i - length a)%nat Hole ++ [c].

(** [Object.keys(r)] and [Object.values(r)]; only [some] consumes them,
    so their order is immaterial. *)
Definition keys (r : row) : list string := (map_to_list r).*1.
Definition values (r : row) : list value := (map_to_list r).*2.

(** [a.filter(cb)]: holes are skipped, the callback receives the element
    and its index in [a]. *)
Fixpoint js_filter_from (cb : cell -> nat -> outcome bool) (k : nat) (a : array)
  : outcome array :=
  match a with
  | [] => Ok []
  | Hole :: a' => js_filter_from cb (S k) a'
  | c :: a' =>
      b ← cb c k;
      rest ← js_filter_from cb (S k) a';
      Ok (if b : bool then c :: rest else rest)
  end.

Definition js_filter (cb : cell -> nat -> outcome bool) (a : array) : outcome array :=
  js_filter_from cb 0 a.

(** [l.some(cb)] for a callback that may raise: the scan stops at the
    first element the callback accepts. *)
Fixpoint js_some {A : Type} (cb : A -> outcome bool) (l : list A) : outcome bool :=
  match l with
  | [] => Ok false
  | x :: l' => b ← cb x; if b : bool then Ok true else js_some cb l'
  end.

(** [a.slice(start, end)] with the relative-index rules of the language. *)
Definition relative_index (len k : Z) : Z :=
  if k <? 0 then Z.max (len + k) 0 else Z.min k len.

Definition slice {A : Type} (a : list A) (start stop : Z) : list A :=
  let len := Z.of_nat (length a) in
  let k := relative_index len start in
  let final := relative_index len stop in
  take (Z.to_nat (Z.max (final - k) 0)) (drop (Z.to_nat k) a).

(** [a.sort(cmp)].  The language requires the sort to be stable and
    leaves the algorithm open; a stable insertion sort stands for it.
    [undefined] elements never reach the comparator and sort last. *)
Definition SortCompare (cmp : row -> row -> Z) (x y : cell) : Z :=
  match x, y with
  | Obj a, Obj b => cmp a b
  | Obj _, _ => -1
  | _, Obj _ => 1
  | _, _ => 0
  end.

Fixpoint insert_sorted {A : Type} (cmp : A -> A -> Z) (x : A) (l : list A) : list A :=
  match l with
  | [] => [x]
  | y :: l' => if 0 <? cmp x y then y :: insert_sorted cmp x l' else x :: l
  end.

Definition js_sort (cmp : row -> row -> Z) (a : array) : array :=
  foldr (insert_sorted (SortCompare cmp)) [] a.

(** [l.join(sep)] on strings. *)
Fixpoint join (sep : string) (l : list string) : string :=
  match l with
  | [] => ""
  | [x] => x
  | x :: l' => x +:+ sep +:+ join sep l'
  end.

(** ** Session state *)

Inductive direction : Type := asc | desc.

Record year_range : Type := { ymin : Z; ymax : Z }.

Record sort_config : Type := { key : option string; dir : direction }.

(** The [useState] cells of the component ([loading] only drives a
    spinner and is left out). *)
Record state : Type := {
  originalData : array;
  currentData : array;
  edits : gmap nat row;
  filterText : string;
  filterGenre : string;
  yearRange : year_range;
  showOnlyEdited : bool;
  sortConfig : sort_config;
  currentPage : Z;
  pageSize : positive
}.

Definition initial_state : state := {|
  originalData := [];
  currentData := [];
  edits := ∅;
  filterText := "";
  filterGenre := "";
  yearRange := {| ymin := 0; ymax := 9999 |};
  showOnlyEdited := false;
  sortConfig := {| key := None; dir := asc |};
  currentPage := 1;
  pageSize := 25
|}.

Definition columns : list string :=
  ["Title"; "Author"; "Genre"; "PublishedYear"; "ISBN"].

(** ** Record codec *)

Definition LF : string := String "010"%char EmptyString.
Definition dquote : ascii := "034"%char.

(** The [replace] of [booksToCSV]: every double quote is doubled. *)
Fixpoint escape_quotes (s : string) : string :=
  match s with
  | EmptyString => EmptyString
  | String a s' =>
      if Ascii.eqb a dquote then String dquote (String dquote (escape_quotes s'))
      else String a (escape_quotes s')
  end.

(** The template literal that wraps a field in quotes. *)
Definition quote_field (v : value) : string :=
  String dquote (escape_quotes (ToString v) +:+ String dquote EmptyString).

Definition csv_line (book : row) : string :=
  join "," ((fun header => quote_field (get book header)) <$> columns).

(** The [forEach] of [booksToCSV] (src/src/App.js, lines 49-62): holes
    are skipped, and reading a property of an [undefined] element
    raises. *)
Fixpoint csv_lines (books : array) : outcome (list string) :=
  match books with
  | [] => Ok []
  | Hole :: books' => csv_lines books'
  | Undef :: _ => Throw TypeError
  | Obj book :: books' => rest ← csv_lines books'; Ok (csv_line book :: rest)
  end.

Definition booksToCSV (books : array) : outcome string :=
  rest ← csv_lines books;
  Ok (join LF (join "," columns :: rest)).

(** A row as the CSV parser delivers it with [header: true]: an object
    from header names to strings. *)
Abbreviation raw_row := (gmap string string).

Definition raw_get (r : raw_row) (k : string) : value :=
  match r !! k with
  | Some s => VStr s
  | None => VUndef
  end.

(** The object literal built by the [complete] callback for the row at
    position [index] (src/src/App.js, lines 73-80). *)
Definition parsed_row (index : nat) (r : raw_row) : row :=
  <["id" := VNum (Z.of_nat index + 1)]>
  (<["Title" := js_or (raw_get r "Title") (VStr "")]>
  (<["Author" := js_or (raw_get r "Author") (VStr "")]>
  (<["Genre" := js_or (raw_get r "Genre") (VStr "")]>
  (<["PublishedYear" := VNum (parseInt_or (raw_get r "PublishedYear") 0)]>
  (<["ISBN" := js_or (raw_get r "ISBN") (VStr "")]> ∅))))).

Definition parsedData (data : list raw_row) : array :=
  imap (fun index r => Obj (parsed_row index r)) data.

(** The four state updates shared by the upload callback (lines 82-86)
    and [handleGenerateData] (lines 103-106). *)
Definition load_data (data : array) (st : state) : state := {|
  originalData := data;
  currentData := data;
  edits := ∅;
  filterText := filterText st;
  filterGenre := filterGenre st;
  yearRange := yearRange st;
  showOnlyEdited := showOnlyEdited st;
  sortConfig := sortConfig st;
  currentPage := 1;
  pageSize := pageSize st
|}.

(** The [complete] callback of [handleFileUpload], on [results.data]. *)
Definition handleFileUpload_complete (data : list raw_row) (st : state) : state :=
  load_data (parsedData data) st.

(** [handleGenerateData]; [data] is what [generateBookData] drew. *)
Definition handleGenerateData (data : array) (st : state) : state :=
  load_data data st.

(** ** Edit tracking *)

Definition with_edit (st : state) (newData : array) (newEdits : gmap nat row) : state := {|
  originalData := originalData st;
  currentData := newData;
  edits := newEdits;
  filterText := filterText st;
  filterGenre := filterGenre st;
  yearRange := yearRange st;
  showOnlyEdited := showOnlyEdited st;
  sortConfig := sortConfig st;
  currentPage := currentPage st;
  pageSize := pageSize st
|}.

(** [newEdits.set(rowIndex, row)] or [newEdits.delete(rowIndex)]. *)
Definition track (hasChanges : bool) (rowIndex : nat) (r : row) (prev : gmap nat row)
  : gmap nat row :=
  if hasChanges then <[rowIndex := r]> prev else delete rowIndex prev.

(** [src/src/App.js]: [handleCellEdit] (lines 113-138), [isCellEdited]
    (lines 242-246) and [isRowEdited] (lines 249-251).  The two state
    updaters of [handleCellEdit] run one after the other on the state
    of the last render; when the second raises, the edit has no
    successor state. *)
Module AppJs.

(** [newData[rowIndex] = { ...newData[rowIndex], [column]: value }]
    on a copy of the previous array. *)
Definition newData (prev : array) (rowIndex : nat) (column : string) (v : value) : array :=
  let copy := spread_array prev in
  arr_set rowIndex (Obj (<[column := v]> (spread_obj (arr_get copy rowIndex)))) copy.

(** [Object.keys(currentRow).some(key => String(currentRow[key]) !==
    String(originalRow[key]))]: reading [originalRow[key]] raises when
    the original collection has no object at [rowIndex]. *)
Definition hasChanges (currentRow : row) (originalRow : option row) : outcome bool :=
  js_some (fun k =>
             originalValue ← get_prop originalRow k;
             Ok (negb (String.eqb (ToString (get currentRow k)) (ToString originalValue))))
          (keys currentRow).

Definition handleCellEdit (rowIndex : nat) (column : string) (v : value) (st : state)
  : outcome state :=
  let originalRow := arr_get (originalData st) rowIndex in
  let currentRow := <[column := v]> (spread_obj (arr_get (currentData st) rowIndex)) in
  changed ← hasChanges currentRow originalRow;
  Ok (with_edit st (newData (currentData st) rowIndex column v)
                (track changed rowIndex currentRow (edits st))).

Definition isCellEdited (rowIndex : nat) (column : string) (st : state) : bool :=
  let originalValue := get_opt (arr_get (originalData st) rowIndex) column in
  let currentValue := get_opt (arr_get (currentData st) rowIndex) column in
  negb (String.eqb (ToString originalValue) (ToString currentValue)).

Definition isRowEdited (rowIndex : nat) (st : state) : bool :=
  bool_decide (is_Some (edits st !! rowIndex)).

End AppJs.

(** [src/unnamed/part_000]: [handleCellEdit] (lines 111-136) and
    [isCellEdited] (lines 219-224). *)
Module Part000.

Definition updatedRow (prevData : array) (rowIndex : nat) (column : string) (v : value) : row :=
  <[column := v]> (spread_obj (arr_get (spread_array prevData) rowIndex)).

(** [columns.some(col => String(updatedRow[col] || '') !==
    String(originalRow?.[col] || ''))]. *)
Definition hasChanges (updated : row) (originalRow : option row) : bool :=
  existsb (fun col =>
             negb (String.eqb (ToString (js_or (get updated col) (VStr "")))
                              (ToString (js_or (get_opt originalRow col) (VStr "")))))
          columns.

Definition handleCellEdit (rowIndex : nat) (column : string) (v : value) (st : state)
  : outcome state :=
  let updated := updatedRow (currentData st) rowIndex column v in
  let newData := arr_set rowIndex (Obj updated) (spread_array (currentData st)) in
  let originalRow := arr_get (originalData st) rowIndex in
  Ok (with_edit st newData
                (track (hasChanges updated originalRow) rowIndex updated (edits st))).

Definition isCellEdited (rowIndex : nat) (column : string) (st : state) : bool :=
  if bool_decide (length (originalData st) <= rowIndex)%nat then false
  else
    let originalValue := js_or (get_opt (arr_get (originalData st) rowIndex) column) (VStr "") in
    let currentValue := js_or (get_opt (arr_get (currentData st) rowIndex) column) (VStr "") in
    negb (String.eqb (ToString originalValue) (ToString currentValue)).

(** The revision has no [isRowEdited]; the table tests [edits.has]
    in place. *)
Definition isRowEdited (rowIndex : nat) (st : state) : bool :=
  bool_decide (is_Some (edits st !! rowIndex)).

End Part000.

(** [handleResetEdits] (src/src/App.js, lines 141-144), the same in
    both revisions. *)
Definition handleResetEdits (st : state) : state :=
  with_edit st (spread_array (originalData st)) ∅.

(** [edits.size], shown as the count of edited records. *)
Definition modifiedCount (st : state) : nat := size (edits st).

(** ** Query pipeline *)

(** The callbacks of the four [filter] calls of [filteredData]
    (src/src/App.js, lines 173-218). *)
Definition text_cb (searchText : string) (book : cell) (index : nat) : outcome bool :=
  match book with
  | Obj r => Ok (existsb (fun v => includes (toLowerCase (ToString v)) searchText) (values r))
  | _ => Throw TypeError
  end.

Definition genre_cb (filterGenre : string) (book : cell) (index : nat) : outcome bool :=
  match book with
  | Obj r => Ok (strict_eq (get r "Genre") (VStr filterGenre))
  | _ => Throw TypeError
  end.

Definition year_cb (range : year_range) (book : cell) (index : nat) : outcome bool :=
  match book with
  | Obj r => Ok (js_ge (get r "PublishedYear") (VNum (ymin range))
                 && js_le (get r "PublishedYear") (VNum (ymax range)))
  | _ => Throw TypeError
  end.

Definition edited_cb (edits : gmap nat row) (book : cell) (index : nat) : outcome bool :=
  Ok (bool_decide (is_Some (edits !! index))).

Definition textStage (st : state) (filtered : array) : outcome array :=
  if String.eqb (filterText st) "" then Ok filtered
  else js_filter (text_cb (toLowerCase (filterText st))) filtered.

Definition genreStage (st : state) (filtered : array) : outcome array :=
  if String.eqb (filterGenre st) "" then Ok filtered
  else js_filter (genre_cb (filterGenre st)) filtered.

Definition yearStage (st : state) (filtered : array) : outcome array :=
  js_filter (year_cb (yearRange st)) filtered.

Definition editedStage (st : state) (filtered : array) : outcome array :=
  if showOnlyEdited st then js_filter (edited_cb (edits st)) filtered
  else Ok filtered.

(** The comparator handed to [sort]. *)
Definition compare_by (k : string) (d : direction) (a b : row) : Z :=
  let aValue := get a k in
  let bValue := get b k in
  if js_lt aValue bValue then (match d with asc => -1 | desc => 1 end)
  else if js_gt aValue bValue then (match d with asc => 1 | desc => -1 end)
  else 0.

Definition sortStage (st : state) (filtered : array) : array :=
  match key (sortConfig st) with
  | None => filtered
  | Some k =>
      if String.eqb k "" then filtered
      else js_sort (compare_by k (dir (sortConfig st))) (spread_array filtered)
  end.

Definition filteredData (st : state) : outcome array :=
  filtered ← textStage st (currentData st);
  filtered ← genreStage st filtered;
  filtered ← yearStage st filtered;
  filtered ← editedStage st filtered;
  Ok (sortStage st filtered).

(** ** Pager *)

(** [Math.ceil(n / pageSize)] for a length [n] and a positive page
    size (src/src/App.js, lines 237-239). *)
Definition ceil_div (n : nat) (pageSize : positive) : Z :=
  (Z.of_nat n + Z.pos pageSize - 1) / Z.pos pageSize.

Definition totalPages (view : array) (pageSize : positive) : Z :=
  ceil_div (length view) pageSize.

Definition startIndex (currentPage : Z) (pageSize : positive) : Z :=
  (currentPage - 1) * Z.pos pageSize.

Definition paginatedData (view : array) (currentPage : Z) (pageSize : positive) : array :=
  slice view (startIndex currentPage pageSize)
             (startIndex currentPage pageSize + Z.pos pageSize).

Definition with_page (st : state) (page : Z) (size : positive) : state := {|
  originalData := originalData st;
  currentData := currentData st;
  edits := edits st;
  filterText := filterText st;
  filterGenre := filterGenre st;
  yearRange := yearRange st;
  showOnlyEdited := showOnlyEdited st;
  sortConfig := sortConfig st;
  currentPage := page;
  pageSize := size
|}.

(** [setCurrentPage(n)], as the page buttons call it. *)
Definition setCurrentPage (n : Z) (st : state) : state := with_page st n (pageSize st).

(** [handlePageSizeChange] of [src/src/App.js] (lines 167-170). *)
Definition handlePageSizeChange (newSize : positive) (st : state) : state :=
  with_page st 1 newSize.

(** ** The two revisions side by side *)

Inductive revision : Type :=
| SrcAppJs       (* src/src/App.js *)
| UnnamedPart000 (* src/unnamed/part_000 *).

Definition handleCellEdit (f : revision) (rowIndex : nat) (column : string) (v : value)
  (st : state) : outcome state :=
  match f with
  | SrcAppJs => AppJs.handleCellEdit rowIndex column v st
  | UnnamedPart000 => Part000.handleCellEdit rowIndex column v st
  end.

Definition isCellEdited (f : revision) (rowIndex : nat) (column : string) (st : state) : bool :=
  match f with
  | SrcAppJs => AppJs.isCellEdited rowIndex column st
  | UnnamedPart000 => Part000.isCellEdited rowIndex column st
  end.

Definition isRowEdited (rowIndex : nat) (st : state) : bool :=
  bool_decide (is_Some (edits st !! rowIndex)).

(** [a[i]?.[c]]: the field of record [i], [undefined] where there is
    no such record. *)
Definition field (a : array) (i : nat) (c : string) : value :=
  get_opt (arr_get a i) c.


(** The session states the engine can be in: a load (upload or
    generation) from any earlier state, then edits of the fixed columns
    and resets.  An edit that raises has no successor. *)
Inductive reachable (f : revision) : state -> Prop :=
| reach_upload (data : list raw_row) (st : state) :
    reachable f (handleFileUpload_complete data st)
| reach_generate (data : array) (st : state) :
    reachable f (handleGenerateData data st)
| reach_edit (st st' : state) (i : nat) (c : string) (v : value) :
    reachable f st -> c ∈ columns ->
    handleCellEdit f i c v st = Ok st' ->
    reachable f st'
| reach_reset (st : state) :
    reachable f st -> reachable f (handleResetEdits st).

(** ** Predicates of the delta invariant *)

(** A record is in the delta set. *)
Definition tracked (st : state) (i : nat) : Prop := is_Some (edits st !! i).



(** ** Configuration of the query *)

Definition with_query (st : state) (text genre : string) (range : year_range)
  (onlyEdited : bool) (cfg : sort_config) : state := {|
  originalData := originalData st;
  currentData := currentData st;
  edits := edits st;
  filterText := text;
  filterGenre := genre;
  yearRange := range;
  showOnlyEdited := onlyEdited;
  sortConfig := cfg;
  currentPage := currentPage st;
  pageSize := pageSize st
|}.

Definition setFilterText (text : string) (st : state) : state :=
  with_query st text (filterGenre st) (yearRange st) (showOnlyEdited st) (sortConfig st).

Definition setFilterGenre (genre : string) (st : state) : state :=
  with_query st (filterText st) genre (yearRange st) (showOnlyEdited st) (sortConfig st).

Definition setYearRange (range : year_range) (st : state) : state :=
  with_query st (filterText st) (filterGenre st) range (showOnlyEdited st) (sortConfig st).

Definition setShowOnlyEdited (b : bool) (st : state) : state :=
  with_query st (filterText st) (filterGenre st) (yearRange st) b (sortConfig st).

(** [handleSort] (src/src/App.js, lines 159-164): a second click on
    the same ascending key flips the direction. *)
Definition handleSort (k : string) (st : state) : state :=
  let current := sortConfig st in
  let d := match key current, dir current with
           | Some k', asc => if String.eqb k' k then desc else asc
           | _, _ => asc
           end in
  with_query st (filterText st) (filterGenre st) (yearRange st) (showOnlyEdited st)
             {| key := Some k; dir := d |}.

(** The four filters as stages that can be run in any order;
    [filteredData] runs them in [source_order]. *)
Inductive stage : Type := TextFilter | GenreFilter | YearFilter | EditedFilter.

Definition run_stage (st : state) (s : stage) (filtered : array) : outcome array :=
  match s with
  | TextFilter => textStage st filtered
  | GenreFilter => genreStage st filtered
  | YearFilter => yearStage st filtered
  | EditedFilter => editedStage st filtered
  end.

Fixpoint run_stages (st : state) (order : list stage) (filtered : array) : outcome array :=
  match order with
  | [] => Ok filtered
  | s :: order' => filtered' ← run_stage st s filtered; run_stages st order' filtered'
  end.

Definition source_order : list stage := [TextFilter; GenreFilter; YearFilter; EditedFilter].

(** ** The pager as the specification words it

    [totalPages = max(1, ceil(len(view) / pageSize))], the page clamped
    into [[1, totalPages]] before slicing. *)
Definition spec_totalPages (view : array) (pageSize : positive) : Z :=
  Z.max 1 (ceil_div (length view) pageSize).

Definition spec_clamp (view : array) (pageSize : positive) (page : Z) : Z :=
  Z.max 1 (Z.min page (spec_totalPages view pageSize)).

Definition spec_paginate (view : array) (pageSize : positive) (page : Z) : array * Z :=
  let p := spec_clamp view pageSize page in
  (slice view ((p - 1) * Z.pos pageSize) (p * Z.pos pageSize),
   spec_totalPages view pageSize).

(** ** The CSV reader *)

Inductive csv_mode : Type :=
| FieldStart  (* at the first character of a field *)
| Unquoted    (* inside a field that did not open with a quote *)
| Quoted      (* inside a quoted field *)
| QuoteSeen   (* after a quote met inside a quoted field *).

(** Modelled from the spec: the text reader behind [decode], which in
    the source is the call [Papa.parse(file, ...)] into the PapaParse
    package and is not part of the repository.  The spec fixes the
    dialect: comma-delimited rows, a field may be wrapped in double
    quotes, inside which commas and line feeds are data and a doubled
    quote is one quote.  [rows], [fields] and [buf] are the finished
    rows, the finished fields of the open row and the text of the open
    field. *)
Fixpoint csv_scan (mode : csv_mode) (rows : list (list string)) (fields : list string)
  (buf : string) (s : string) : list (list string) :=
  match s with
  | EmptyString =>
      match mode, fields with
      | FieldStart, [] => rows
      | _, _ => rows ++ [fields ++ [buf]]
      end
  | String a s' =>
      match mode with
      | Quoted =>
          if Ascii.eqb a dquote then csv_scan QuoteSeen rows fields buf s'
          else csv_scan Quoted rows fields (buf +:+ String a EmptyString) s'
      | _ =>
          if Ascii.eqb a "," then csv_scan FieldStart rows (fields ++ [buf]) EmptyString s'
          else if Ascii.eqb a "010" then
            csv_scan FieldStart (rows ++ [fields ++ [buf]]) [] EmptyString s'
          else if Ascii.eqb a dquote then
            match mode with
            | FieldStart => csv_scan Quoted rows fields EmptyString s'
            | QuoteSeen => csv_scan Quoted rows fields (buf +:+ String dquote EmptyString) s'
            | _ => csv_scan Unquoted rows fields (buf +:+ String a EmptyString) s'
            end
          else csv_scan Unquoted rows fields (buf +:+ String a EmptyString) s'
      end
  end.

(** A line that holds a single empty field. *)
Definition is_empty_line (fields : list string) : bool :=
  match fields with
  | [f] => String.eqb f ""
  | _ => false
  end.

(** Modelled from the spec: the result of [Papa.parse] under the
    options the source passes, [header: true] and [skipEmptyLines:
    true]; the package is not part of the repository.  Empty lines are
    dropped, the first remaining row names the columns, and every later
    row becomes an object from those names to its fields (a short row
    leaves the missing columns absent). *)
Definition Papa_parse (text : string) : list raw_row :=
  match List.filter (fun fields => negb (is_empty_line fields))
                    (csv_scan FieldStart [] [] EmptyString text) with
  | [] => []
  | header :: data => (fun fields => list_to_map (zip header fields)) <$> data
  end.

(** [decode]: the reader followed by the [complete] callback. *)
Definition decode (text : string) : array := parsedData (Papa_parse text).

(** The text columns and the shape of a record that loses nothing when
    written as text: its text fields are strings, its year an integer. *)
Definition text_columns : list string := ["Title"; "Author"; "Genre"; "ISBN"].

Definition well_typed (r : row) : Prop :=
  (forall c, c ∈ text_columns -> exists s, get r c = VStr s) /\
  (exists z, get r "PublishedYear" = VNum z).

(** ** Sample collections *)

Definition raw (title author genre year isbn : string) : raw_row :=
  list_to_map [("Title", title); ("Author", author); ("Genre", genre);
               ("PublishedYear", year); ("ISBN", isbn)].

Definition book (id : Z) (title author genre : string) (year : value) (isbn : string) : row :=
  list_to_map [("id", VNum id); ("Title", VStr title); ("Author", VStr author);
               ("Genre", VStr genre); ("PublishedYear", year); ("ISBN", VStr isbn)].

Definition sample_upload : list raw_row :=
  [raw "Dune" "Herbert" "Fantasy" "1965" "111";
   raw "Emma" "Austen" "Classic" "1815" "222";
   raw "Ulysses" "Joyce" "Classic" "1922" "555"].

(** The session after uploading [sample_upload]. *)
Definition sample_session : state :=
  handleFileUpload_complete sample_upload initial_state.


(** A view of ten thousand and one records, for the pager. *)
Definition long_view : array := replicate (Z.to_nat 10001) (Obj ∅).

(** ** Filters on collections without holes *)

(** The elements kept by a predicate that also sees the position,
    counted from [k]. *)
Fixpoint filter_indexed {A : Type} (p : A -> nat -> bool) (k : nat) (l : list A) : list A :=
  match l with
  | [] => []
  | x :: l' => if p x k then x :: filter_indexed p (S k) l' else filter_indexed p (S k) l'
  end.

(** The test of the text filter on one record. *)
Definition matches_text (searchText : string) (r : row) : bool :=
  existsb (fun v => includes (toLowerCase (ToString v)) searchText) (values r).

(** The test the specification words: some fixed column contains the
    query. *)
Definition spec_matches_text (searchText : string) (r : row) : bool :=
  existsb (fun c => includes (toLowerCase (ToString (get r c))) searchText) columns.

(** ** Orderings for the sort *)

(** The order of two numbers or of two strings; values of different
    kinds are not ordered by it. *)
Definition natural_le (x y : value) : Prop :=
  match x, y with
  | VNum a, VNum b => a <= b
  | VStr s, VStr t => String.le s t
  | _, _ => False
  end.

Definition key_le (k : string) (d : direction) (a b : row) : Prop :=
  match d with
  | asc => natural_le (get a k) (get b k)
  | desc => natural_le (get b k) (get a k)
  end.

(** The values under key [k] are all numbers, or all strings. *)
Definition numeric_keys (k : string) (rows : list row) : Prop :=
  Forall (fun r => exists z, get r k = VNum z) rows.

Definition text_keys (k : string) (rows : list row) : Prop :=
  Forall (fun r => exists s, get r k = VStr s) rows.

(** The numeric order the specification names for the year column:
    the values read as numbers. *)
Definition numeric_le (x y : value) : Prop :=
  match ToNumber x, ToNumber y with
  | Some a, Some b => a <= b
  | _, _ => False
  end.

(** A field between quotes, as [booksToCSV] writes it. *)
Definition quoted (s : string) : string :=
  String dquote (escape_quotes s +:+ String dquote EmptyString).

(** The five field texts of a record, in column order. *)
Definition field_texts (book : row) : list string :=
  (fun header => ToString (get book header)) <$> columns.

(** Two records whose titles hold a comma, a quote and a line feed. *)
Definition tricky_books : list row :=
  [book 1 ("a,b" +:+ String dquote ("c" +:+ LF +:+ "d")) "Herbert" "Fantasy" (VNum 1965) "111";
   book 2 "" "Austen" "Classic" (VNum (-44)) "222"].

(** The three records of [sample_session]. *)
Definition sample_books : list row :=
  [book 1 "Dune" "Herbert" "Fantasy" (VNum 1965) "111";
   book 2 "Emma" "Austen" "Classic" (VNum 1815) "222";
   book 3 "Ulysses" "Joyce" "Classic" (VNum 1922) "555"].

(** ** Page navigation *)

(** The bounds of the label under the table, Showing [from] to [to] of
    [n] (src/src/App.js, line 481; src/unnamed/part_000, line 405). *)
Definition showingFrom (currentPage : Z) (pageSize : positive) : Z :=
  (currentPage - 1) * Z.pos pageSize + 1.

Definition showingTo (view : array) (currentPage : Z) (pageSize : positive) : Z :=
  Z.min (currentPage * Z.pos pageSize) (Z.of_nat (length view)).

(** The number on the [i]-th numbered page button of [src/src/App.js]
    (lines 518-523). *)
Definition pageNum (currentPage totalPages i : Z) : Z :=
  if currentPage <=? 3 then i + 1
  else if totalPages - 2 <=? currentPage then totalPages - 4 + i
  else currentPage - 2 + i.

(** The numbered buttons that are rendered: [Array.from] over
    [Math.min(5, totalPages)] slots, a slot whose number falls outside
    [1..totalPages] rendering nothing (lines 518-525). *)
Definition pageButtons (currentPage totalPages : Z) : list Z :=
  List.filter (fun n => negb ((n <? 1) || (totalPages <? n)))
    ((fun i => pageNum currentPage totalPages (Z.of_nat i))
       <$> seq 0 (Z.to_nat (Z.min 5 totalPages))).

Inductive nav_button : Type :=
| First
| Previous
| Next
| Last
| Numbered (n : Z).

(** The page a click on a navigation button asks [setCurrentPage] for;
    [None] when the button is disabled or not rendered
    (src/src/App.js, lines 502-556; src/unnamed/part_000, lines
    420-450, which has no numbered buttons). *)
Definition clickNav (b : nav_button) (currentPage totalPages : Z) : option Z :=
  match b with
  | First => if currentPage =? 1 then None else Some 1
  | Previous => if currentPage =? 1 then None else Some (currentPage - 1)
  | Next => if currentPage =? totalPages then None else Some (currentPage + 1)
  | Last => if currentPage =? totalPages then None else Some totalPages
  | Numbered n =>
      if bool_decide (n ∈ pageButtons currentPage totalPages) then Some n else None
  end.

(** The page numbers [1..n]. *)
Definition pagesUpTo (n : Z) : list Z :=
  (fun j => Z.of_nat j + 1) <$> seq 0 (Z.to_nat n).

(** ** Sequences of edits *)

(** The sessions that follow from [st] by edits that succeed and by
    resets, without a new load. *)
Inductive evolves (f : revision) (st : state) : state -> Prop :=
| evolves_here : evolves f st st
| evolves_edit (st1 st2 : state) (i : nat) (c : string) (v : value) :
    evolves f st st1 -> handleCellEdit f i c v st1 = Ok st2 -> evolves f st st2
| evolves_reset (st1 : state) :
    evolves f st st1 -> evolves f st (handleResetEdits st1).

(** Whether revision [f] finds the record [r] changed against the
    original [o], when it can tell. *)
Definition changed (f : revision) (r : row) (o : option row) : bool :=
  match f with
  | SrcAppJs =>
      existsb (fun k => negb (String.eqb (ToString (get r k)) (ToString (get_opt o k))))
              (keys r)
  | UnnamedPart000 => Part000.hasChanges r o
  end.

(** ** The filters, record by record *)

(** The test a filter stage applies to one record; the modified-only
    stage tests the position, not the record, and is left out. *)
Definition stage_keeps (st : state) (s : stage) (r : row) : bool :=
  match s with
  | TextFilter =>
      if String.eqb (filterText st) "" then true
      else matches_text (toLowerCase (filterText st)) r
  | GenreFilter =>
      if String.eqb (filterGenre st) "" then true
      else strict_eq (get r "Genre") (VStr (filterGenre st))
  | YearFilter =>
      js_ge (get r "PublishedYear") (VNum (ymin (yearRange st)))
      && js_le (get r "PublishedYear") (VNum (ymax (yearRange st)))
  | EditedFilter => true
  end.

(** Whether the year an uploaded row is decoded to lies in the
    default range of the year filter. *)
Definition year_in_default_range (r : raw_row) : bool :=
  let y := parseInt_or (raw_get r "PublishedYear") 0 in
  (0 <=? y) && (y <=? 9999).

(** The records that pass the four filters, before sorting, on a
    collection of objects. *)
Definition filtered_rows (st : state) (rows : list row) : list row :=
  let kept := List.filter (fun r => forallb (fun s => stage_keeps st s r)
                                       [TextFilter; GenreFilter; YearFilter]) rows in
  if showOnlyEdited st
  then filter_indexed (fun _ k => bool_decide (is_Some (edits st !! k))) 0 kept
  else kept.

(** ** Values offered by the filter controls *)

(** [a.map(book => book[k])]: the values under [k], in order; holes
    stay holes and are dropped by the [filter] that follows in both
    uses, and an [undefined] element raises. *)
Fixpoint column_values (k : string) (a : array) : outcome (list value) :=
  match a with
  | [] => Ok []
  | Hole :: a' => column_values k a'
  | Undef :: _ => Throw TypeError
  | Obj r :: a' => rest ← column_values k a'; Ok (get r k :: rest)
  end.

(** [new Set(l)] read back with [Array.from]: the first occurrence of
    every value, in order. *)
Fixpoint distinct (l : list value) : list value :=
  match l with
  | [] => []
  | x :: l' => x :: List.filter (fun y => negb (bool_decide (y = x))) (distinct l')
  end.

(** The comparison of [sort()] without a comparator: by the strings of
    the values. *)
Definition default_compare (x y : value) : Z :=
  if String.ltb (ToString x) (ToString y) then -1
  else if String.ltb (ToString y) (ToString x) then 1
  else 0.

(** [genres] (src/src/App.js, lines 221-224; src/unnamed/part_000,
    lines 208-211): the distinct truthy genres of the current
    collection, sorted. *)
Definition genres (st : state) : outcome (list value) :=
  all ← column_values "Genre" (currentData st);
  Ok (foldr (insert_sorted default_compare) [] (distinct (List.filter truthy all))).

(** [Math.min(x, ...l)] and [Math.max(x, ...l)]: every argument is
    converted to a number, and one [NaN] makes the result [NaN]. *)
Fixpoint Math_min (x : value) (l : list value) : option Z :=
  match l with
  | [] => ToNumber x
  | y :: l' => a ← ToNumber x; b ← Math_min y l'; Some (Z.min a b)
  end.

Fixpoint Math_max (x : value) (l : list value) : option Z :=
  match l with
  | [] => ToNumber x
  | y :: l' => a ← ToNumber x; b ← Math_max y l'; Some (Z.max a b)
  end.

(** [yearRangeValues] (src/src/App.js, lines 227-234): the least and
    the greatest of the years above 0, or 0 and 2023 when there is
    none. *)
Definition yearRangeValues (st : state) : outcome (option Z * option Z) :=
  all ← column_values "PublishedYear" (currentData st);
  match List.filter (fun year => js_gt year (VNum 0)) all with
  | [] => Ok (Some 0, Some 2023)
  | y :: years => Ok (Math_min y years, Math_max y years)
  end.

(** * Verification *)

Ltac in_list := repeat first [apply list_elem_of_here | apply list_elem_of_further].

(** ** Arrays and objects *)

Lemma arr_get_spread (a : array) (i : nat) :
  arr_get (spread_array a) i = arr_get a i.
Proof.
  unfold arr_get, spread_array. rewrite list_lookup_fmap.
  destruct (a !! i) as [[| |r]|]; reflexivity.
Qed.

Lemma length_spread (a : array) : length (spread_array a) = length a.
Proof. unfold spread_array. apply length_fmap. Qed.

Lemma lookup_arr_set (a : array) (i j : nat) (c : cell) :
  arr_set j c a !! i =
  if decide (i = j) then Some c
  else if decide (i < length a)%nat then a !! i
  else if decide (i < j)%nat then Some Hole else None.
Proof.
  unfold arr_set. case_bool_decide as Hj.
  - destruct (decide (i = j)) as [->|Hne].
    + by apply list_lookup_insert_eq.
    + rewrite list_lookup_insert_ne by done.
      destruct (decide (i < length a)%nat); [done|].
      rewrite lookup_ge_None_2 by lia.
      destruct (decide (i < j)%nat); [lia|done].
  - destruct (decide (i < length a)%nat) as [Hi|Hi].
    + rewrite lookup_app_l by done. destruct (decide (i = j)); [lia|done].
    + rewrite lookup_app_r by lia.
      destruct (decide (i = j)) as [->|Hne].
      * rewrite lookup_app_r by (rewrite length_replicate; lia).
        rewrite length_replicate. by rewrite Nat.sub_diag.
      * destruct (decide (i < j)%nat) as [Hlt|Hge].
        -- rewrite lookup_app_l by (rewrite length_replicate; lia).
           apply lookup_replicate_2. lia.
        -- apply lookup_ge_None_2. rewrite length_app, length_replicate. simpl. lia.
Qed.

Lemma arr_get_set (a : array) (i j : nat) (c : cell) :
  arr_get (arr_set j c a) i =
  if decide (i = j) then match c with Obj r => Some r | _ => None end
  else arr_get a i.
Proof.
  unfold arr_get. rewrite lookup_arr_set.
  destruct (decide (i = j)); [done|].
  destruct (decide (i < length a)%nat) as [|Hge]; [done|].
  rewrite (lookup_ge_None_2 a i) by lia.
  by destruct (decide (i < j)%nat).
Qed.

Lemma length_arr_set (a : array) (j : nat) (c : cell) :
  length (arr_set j c a) = Nat.max (length a) (S j).
Proof.
  unfold arr_set. case_bool_decide.
  - rewrite length_insert. lia.
  - rewrite !length_app, length_replicate. simpl. lia.
Qed.

Lemma arr_get_ge (a : array) (i : nat) : (length a <= i)%nat -> arr_get a i = None.
Proof. intros H. unfold arr_get. by rewrite lookup_ge_None_2. Qed.

Lemma existsb_keys (p : string -> bool) (r : row) :
  existsb p (keys r) = true <-> exists k, is_Some (r !! k) /\ p k = true.
Proof.
  unfold keys. rewrite existsb_exists. split.
  - intros (k & Hin & Hp). exists k. split; [|done].
    apply list_elem_of_In, list_elem_of_fmap in Hin as ([k' v] & -> & Hin).
    apply elem_of_map_to_list in Hin. by exists v.
  - intros (k & [v Hv] & Hp). exists k. split; [|done].
    apply list_elem_of_In, list_elem_of_fmap. exists (k, v). split; [done|].
    by apply elem_of_map_to_list.
Qed.

Lemma existsb_values (p : value -> bool) (r : row) :
  existsb p (values r) = true <-> exists k v, r !! k = Some v /\ p v = true.
Proof.
  unfold values. rewrite existsb_exists. split.
  - intros (v & Hin & Hp).
    apply list_elem_of_In, list_elem_of_fmap in Hin as ([k v'] & -> & Hin).
    apply elem_of_map_to_list in Hin. by exists k, v'.
  - intros (k & v & Hv & Hp). exists v. split; [|done].
    apply list_elem_of_In, list_elem_of_fmap. exists (k, v). split; [done|].
    by apply elem_of_map_to_list.
Qed.



(** ** Edit tracking: the delta invariant *)



(** The scan of [Object.keys(currentRow)] finds a difference exactly
    when a fixed column differs, as long as the rest of the record is
    the original's. *)
Lemma js_some_total {A : Type} (cb : A -> outcome bool) (p : A -> bool) (l : list A) :
  (forall x, cb x = Ok (p x)) -> js_some cb l = Ok (existsb p l).
Proof.
  intros Hcb. induction l as [|x l IH]; [done|].
  simpl. rewrite Hcb. simpl. destruct (p x); [done|]. by rewrite IH.
Qed.

Lemma js_some_raises {A : Type} (cb : A -> outcome bool) (e : js_error) (l : list A) :
  l <> [] -> (forall x, cb x = Throw e) -> js_some cb l = Throw e.
Proof.
  intros Hl Hcb. destruct l as [|x l]; [done|]. simpl. by rewrite Hcb.
Qed.

Lemma keys_insert_nonempty (r : row) (c : string) (v : value) : keys (<[c := v]> r) <> [].
Proof.
  intros Hk.
  assert (existsb (fun _ => true) (keys (<[c := v]> r)) = true) as He.
  { apply existsb_keys. exists c. rewrite lookup_insert_eq. split; [by eexists|done]. }
  by rewrite Hk in He.
Qed.

Lemma AppJs_hasChanges_missing (r : row) (c : string) (v : value) :
  AppJs.hasChanges (<[c := v]> r) None = Throw TypeError.
Proof.
  unfold AppJs.hasChanges. apply js_some_raises; [apply keys_insert_nonempty|done].
Qed.








Lemma get_spread_obj (o : option row) (c : string) : get (spread_obj o) c = get_opt o c.
Proof. by destruct o. Qed.

Lemma get_insert (r : row) (c c' : string) (v : value) :
  get (<[c := v]> r) c' = if decide (c = c') then v else get r c'.
Proof.
  unfold get. destruct (decide (c = c')) as [->|Hne].
  - by rewrite lookup_insert_eq.
  - by rewrite lookup_insert_ne.
Qed.




(** ** Reset *)

Lemma spread_array_dense (a : array) :
  Forall (fun c => c <> Hole) a -> spread_array a = a.
Proof.
  induction 1 as [|c a Hc _ IH]; [done|].
  unfold spread_array in *. rewrite fmap_cons, IH. by destruct c.
Qed.

Lemma parsedData_dense (data : list raw_row) :
  Forall (fun c => c <> Hole) (parsedData data).
Proof.
  unfold parsedData. apply Forall_forall. intros c Hc.
  apply elem_of_lookup_imap in Hc as (i & r & -> & _). done.
Qed.

(** C5 (amended): [handleResetEdits] makes every record and field of
    the current collection equal to the original one (the same array
    when the original has no holes, as after every upload), keeps the
    original, empties the delta set, and leaves the current page number
    as it was. *)
Theorem C5_reset_restores_original (st : state) :
  let st' := handleResetEdits st in
  (forall i, arr_get (currentData st') i = arr_get (originalData st) i) /\
  (forall i c, field (currentData st') i c = field (originalData st) i c) /\
  length (currentData st') = length (originalData st) /\
  (Forall (fun c => c <> Hole) (originalData st) -> currentData st' = originalData st) /\
  originalData st' = originalData st /\
  edits st' = ∅ /\
  modifiedCount st' = 0%nat /\
  currentPage st' = currentPage st.
Proof.
  simpl. repeat split.
  - intros i. apply arr_get_spread.
  - intros i c. unfold field. by rewrite arr_get_spread.
  - apply length_spread.
  - apply spread_array_dense.
Qed.

Lemma C5_reset_restores_original_witness :
  Forall (fun c => c <> Hole) (originalData sample_session) /\
  currentData (handleResetEdits sample_session) = originalData sample_session.
Proof.
  split.
  - apply parsedData_dense.
  - destruct (C5_reset_restores_original sample_session) as (_ & _ & _ & H & _).
    apply H, parsedData_dense.
Defined.

(** C5 as stated fails: a reset on page 3 stays on page 3. *)
Lemma C5_reset_keeps_page :
  currentPage (handleResetEdits (setCurrentPage 3 sample_session)) = 3 /\
  currentPage (handleResetEdits (setCurrentPage 3 sample_session)) <> 1.
Proof. split; [reflexivity|discriminate]. Qed.

(** The original collection is never written by an edit or a reset. *)
Lemma original_kept (f : revision) (st st' : state) (i : nat) (c : string) (v : value) :
  handleCellEdit f i c v st = Ok st' -> originalData st' = originalData st.
Proof.
  destruct f; simpl.
  - unfold AppJs.handleCellEdit.
    destruct (AppJs.hasChanges _ _); [|done]. simpl. by intros [= <-].
  - unfold Part000.handleCellEdit. by intros [= <-].
Qed.

(** ** Indices past the end *)

Lemma AppJs_edit_needs_original (st : state) (i : nat) (c : string) (v : value) :
  arr_get (originalData st) i = None ->
  AppJs.handleCellEdit i c v st = Throw TypeError.
Proof.
  intros Ho. unfold AppJs.handleCellEdit. by rewrite Ho, AppJs_hasChanges_missing.
Qed.

(** C9 (amended): for a record index past the end of both collections
    the modification queries answer without any error ([isCellEdited]
    is [false] in both revisions, [isRowEdited] is plain delta-set
    membership), and an edit in src/src/App.js raises a [TypeError],
    so the session keeps its state; no IndexOutOfRange error exists. *)
Theorem C9_out_of_range_access (st : state) (i : nat) (c : string) :
  (length (originalData st) <= i)%nat ->
  (length (currentData st) <= i)%nat ->
  isCellEdited SrcAppJs i c st = false /\
  isCellEdited UnnamedPart000 i c st = false /\
  (isRowEdited i st = true <-> tracked st i) /\
  (forall v, handleCellEdit SrcAppJs i c v st = Throw TypeError).
Proof.
  intros Ho Hc. repeat split.
  - simpl. unfold AppJs.isCellEdited. by rewrite !arr_get_ge.
  - simpl. unfold Part000.isCellEdited. by rewrite bool_decide_true.
  - unfold isRowEdited. by rewrite bool_decide_eq_true.
  - unfold isRowEdited. by rewrite bool_decide_eq_true.
  - intros v. simpl. apply AppJs_edit_needs_original. by apply arr_get_ge.
Qed.

Lemma C9_out_of_range_access_witness :
  (length (originalData sample_session) <= 4)%nat /\
  (length (currentData sample_session) <= 4)%nat /\
  isCellEdited SrcAppJs 4 "Title" sample_session = false /\
  isCellEdited UnnamedPart000 4 "Title" sample_session = false /\
  handleCellEdit SrcAppJs 4 "Title" (VStr "Z") sample_session = Throw TypeError.
Proof.
  assert (length (originalData sample_session) <= 4)%nat as Ho by (vm_compute; lia).
  assert (length (currentData sample_session) <= 4)%nat as Hc by (vm_compute; lia).
  destruct (C9_out_of_range_access sample_session 4 "Title" Ho Hc) as (H1 & H2 & _ & H3).
  split; [exact Ho|]. split; [exact Hc|].
  split; [exact H1|split; [exact H2|apply H3]].
Defined.

(** C9 as stated fails: on the three uploaded records, index 4 is
    answered [false] by [isCellEdited] in both revisions, and the edit
    of src/unnamed/part_000 succeeds, growing the current collection to
    five cells beside an original of three. *)
Lemma C9_beyond_length_is_silent :
  length (currentData sample_session) = 3%nat /\
  isCellEdited SrcAppJs 4 "Title" sample_session = false /\
  isCellEdited UnnamedPart000 4 "Title" sample_session = false /\
  exists st,
    handleCellEdit UnnamedPart000 4 "Title" (VStr "Z") sample_session = Ok st /\
    length (currentData st) = 5%nat /\
    length (originalData st) = 3%nat /\
    currentData st !! 3%nat = Some Hole /\
    currentData st !! 4%nat = Some (Obj {["Title" := VStr "Z"]}) /\
    tracked st 4.
Proof.
  split; [reflexivity|]. split; [reflexivity|]. split; [reflexivity|].
  eexists. split; [reflexivity|].
  repeat split; try (vm_compute; reflexivity).
  vm_compute. by eexists.
Qed.

(** ** Edits store the value as given *)



(** A typed year is compared as text: a year cell set to the string
    abc fails the year filter for every range, and between the strings
    10 and 9 the comparator puts 10 first. *)
Example edited_year_is_text :
  (forall range k,
     year_cb range (Obj (<["PublishedYear" := VStr "abc"]> ∅)) k = Ok false) /\
  compare_by "PublishedYear" asc (<["PublishedYear" := VStr "10"]> ∅)
                                 (<["PublishedYear" := VStr "9"]> ∅) = -1.
Proof. split; [intros [lo hi] k|]; reflexivity. Qed.

(** ** Pager *)

Lemma ceil_div_bounds (n : nat) (ps : positive) :
  (ceil_div n ps - 1) * Z.pos ps < Z.of_nat n <= ceil_div n ps * Z.pos ps.
Proof.
  unfold ceil_div.
  pose proof (Z.div_mod (Z.of_nat n + Z.pos ps - 1) (Z.pos ps) ltac:(lia)) as Hdm.
  pose proof (Z.mod_pos_bound (Z.of_nat n + Z.pos ps - 1) (Z.pos ps) ltac:(lia)) as Hm.
  nia.
Qed.

Lemma ceil_div_0 (ps : positive) : ceil_div 0 ps = 0.
Proof.
  unfold ceil_div. apply Z.div_small. lia.
Qed.

Lemma lookup_slice_nonneg {A : Type} (a : list A) (start len : Z) (k : nat) :
  0 <= start -> 0 <= len ->
  slice a start (start + len) !! k =
  if decide (Z.of_nat k < len) then a !! (Z.to_nat start + k)%nat else None.
Proof.
  intros Hs Hl. unfold slice, relative_index.
  destruct (Z.ltb_spec start 0) as [|_]; [lia|].
  destruct (Z.ltb_spec (start + len) 0) as [|_]; [lia|].
  destruct (decide (Z.of_nat k < len)) as [Hk|Hk].
  - destruct (decide (Z.to_nat start + k < length a)%nat) as [Hin|Hout].
    + rewrite lookup_take_lt by lia. rewrite lookup_drop. f_equal. lia.
    + rewrite (lookup_ge_None_2 a) by lia.
      apply lookup_ge_None_2. rewrite length_take, length_drop. lia.
  - apply lookup_ge_None_2. rewrite length_take. lia.
Qed.

(** C3 (amended): [totalPages] is the ceiling of the view length over
    the page size, hence 0 for an empty view; [setCurrentPage] stores
    the requested number as it is; and for a page number from 1 up the
    page shown is the slice of the view from [(page-1)*pageSize], at
    most [pageSize] long, which is empty for every page past
    [totalPages].  No operation raises. *)
Theorem C3_pager_does_not_clamp (view : array) (ps : positive) (page : Z) (st : state) :
  ((totalPages view ps - 1) * Z.pos ps < Z.of_nat (length view) <= totalPages view ps * Z.pos ps) /\
  totalPages [] ps = 0 /\
  currentPage (setCurrentPage page st) = page /\
  (1 <= page ->
   forall k : nat,
     paginatedData view page ps !! k =
     if decide (Z.of_nat k < Z.pos ps)
     then view !! (Z.to_nat ((page - 1) * Z.pos ps) + k)%nat else None) /\
  (1 <= page -> totalPages view ps < page -> paginatedData view page ps = []).
Proof.
  split; [apply ceil_div_bounds|]. split; [apply ceil_div_0|]. split; [done|].
  assert (1 <= page -> forall k : nat,
     paginatedData view page ps !! k =
     if decide (Z.of_nat k < Z.pos ps)
     then view !! (Z.to_nat ((page - 1) * Z.pos ps) + k)%nat else None) as Hlook.
  { intros Hp k. unfold paginatedData, startIndex. apply lookup_slice_nonneg; nia. }
  split; [exact Hlook|].
  intros Hp Hgt. apply list_eq. intros k. rewrite (Hlook Hp k).
  destruct (decide _); [|done].
  rewrite lookup_nil. apply lookup_ge_None_2.
  pose proof (ceil_div_bounds (length view) ps) as Hb. unfold totalPages in Hgt. nia.
Qed.

Lemma C3_pager_does_not_clamp_witness :
  1 <= 402 /\
  totalPages long_view 25 < 402 /\
  paginatedData long_view 402 25 = [].
Proof.
  assert (1 <= 402) as H1 by lia.
  assert (totalPages long_view 25 < 402) as H2 by (vm_compute; reflexivity).
  split; [exact H1|]. split; [exact H2|].
  destruct (C3_pager_does_not_clamp long_view 25 402 initial_state)
    as (_ & _ & _ & _ & H).
  exact (H H1 H2).
Defined.

(** C3 as stated fails: an empty view has 0 pages where the
    specification says 1, and with 10001 records and pages of 25 a
    request for page 402 is stored as 402 and shows nothing, where
    clamping would show the one record of page 401. *)
Lemma C3_no_max_no_clamp :
  totalPages [] 25 = 0 /\
  spec_totalPages [] 25 = 1 /\
  totalPages long_view 25 = 401 /\
  currentPage (setCurrentPage 402 sample_session) = 402 /\
  paginatedData long_view 402 25 = [] /\
  spec_paginate long_view 25 402 = ([Obj ∅], 401).
Proof. repeat split; vm_compute; reflexivity. Qed.

(** ** Filters *)

Lemma js_filter_from_dense (cb : cell -> nat -> outcome bool) (p : row -> nat -> bool)
  (k : nat) (rows : list row) :
  (forall r i, cb (Obj r) i = Ok (p r i)) ->
  js_filter_from cb k (Obj <$> rows) = Ok (Obj <$> filter_indexed p k rows).
Proof.
  intros Hcb. revert k. induction rows as [|r rows IH]; intros k; [done|].
  rewrite fmap_cons. simpl. rewrite Hcb, IH. simpl. by destruct (p r k).
Qed.

Lemma filter_indexed_plain {A : Type} (p : A -> bool) (k : nat) (l : list A) :
  filter_indexed (fun x _ => p x) k l = List.filter p l.
Proof.
  revert k. induction l as [|x l IH]; intros k; [done|].
  simpl. by rewrite IH.
Qed.

Lemma js_filter_dense (cb : cell -> nat -> outcome bool) (p : row -> bool) (rows : list row) :
  (forall r i, cb (Obj r) i = Ok (p r)) ->
  js_filter cb (Obj <$> rows) = Ok (Obj <$> List.filter p rows).
Proof.
  intros Hcb. unfold js_filter.
  rewrite (js_filter_from_dense cb (fun r _ => p r)) by done.
  by rewrite filter_indexed_plain.
Qed.

Lemma startsWith_spec (s t : string) :
  startsWith s t = true <-> exists post, s = t +:+ post.
Proof.
  revert s. induction t as [|b t IH]; intros s; simpl.
  - split; [|done]. intros _. by exists s.
  - destruct s as [|a s].
    + split; [done|]. by intros [post ?].
    + rewrite andb_true_iff, IH. split.
      * intros [Hab [post ->]]. apply Ascii.eqb_eq in Hab as ->. by exists post.
      * intros [post [= -> ->]]. split; [apply Ascii.eqb_refl|by exists post].
Qed.

(** [includes] is the substring test. *)
Lemma includes_spec (s t : string) :
  includes s t = true <-> exists pre post, s = pre +:+ t +:+ post.
Proof.
  induction s as [|a s IH]; simpl; rewrite orb_true_iff, startsWith_spec.
  - split.
    + intros [[post ->]|]; [|done]. by exists "", post.
    + intros (pre & post & H). left. destruct pre; [by exists post|done].
  - rewrite IH. split.
    + intros [[post ->]|(pre & post & ->)]; [by exists "", post|].
      by exists (String a pre), post.
    + intros (pre & post & H). destruct pre as [|b pre].
      * left. by exists post.
      * right. injection H as -> ->. by exists pre, post.
Qed.

Lemma includes_empty (s : string) : includes s "" = true.
Proof. apply includes_spec. by exists "", s. Qed.


Lemma matches_text_spec (q : string) (r : row) :
  matches_text q r = true <->
  exists k v pre post, r !! k = Some v /\ toLowerCase (ToString v) = pre +:+ q +:+ post.
Proof.
  unfold matches_text. rewrite existsb_values. split.
  - intros (k & v & Hk & Hin). apply includes_spec in Hin as (pre & post & H).
    by exists k, v, pre, post.
  - intros (k & v & pre & post & Hk & H). exists k, v. split; [done|].
    apply includes_spec. by exists pre, post.
Qed.

(** The modified-only filter keeps the element standing at position
    [k] of the sequence it is given exactly when [k] is in the delta
    set. *)
Lemma editedStage_dense (st : state) (rows : list row) :
  editedStage st (Obj <$> rows) =
  Ok (Obj <$> (if showOnlyEdited st
               then filter_indexed (fun _ k => bool_decide (is_Some (edits st !! k))) 0 rows
               else rows)).
Proof.
  unfold editedStage. destruct (showOnlyEdited st); [|done].
  by apply js_filter_from_dense.
Qed.

Lemma filteredData_stages (st : state) :
  filteredData st =
  (filtered ← run_stages st source_order (currentData st); Ok (sortStage st filtered)).
Proof.
  unfold filteredData, source_order. simpl.
  destruct (textStage st (currentData st)) as [a1|]; [|done]. simpl.
  destruct (genreStage st a1) as [a2|]; [|done]. simpl.
  destruct (yearStage st a2) as [a3|]; [|done]. simpl.
  by destruct (editedStage st a3) as [a4|].
Qed.

(** C2, evaluated where it fails.  Record 1 of the sample is edited,
    the genre filter is set to Classic and the modified-only flag is
    on.  The genre filter leaves records 1 and 2 at positions 0 and 1;
    the modified-only filter then asks the delta set about those
    positions, so the view shows the untouched record 2 and drops the
    edited record 1.  Run first, the same filter keeps record 1. *)
Theorem C2_modified_only_reads_view_position :
  exists st1,
    handleCellEdit SrcAppJs 1 "Title" (VStr "Zeta") sample_session = Ok st1 /\
    let st := setShowOnlyEdited true (setFilterGenre "Classic" st1) in
    edits st = {[ 1%nat := book 2 "Zeta" "Austen" "Classic" (VNum 1815) "222" ]} /\
    currentData st !! 1%nat = Some (Obj (book 2 "Zeta" "Austen" "Classic" (VNum 1815) "222")) /\
    filteredData st = Ok [Obj (book 3 "Ulysses" "Joyce" "Classic" (VNum 1922) "555")] /\
    run_stages st [EditedFilter; TextFilter; GenreFilter; YearFilter] (currentData st) =
      Ok [Obj (book 2 "Zeta" "Austen" "Classic" (VNum 1815) "222")].
Proof.
  eexists. split; [vm_compute; reflexivity|]. cbv zeta.
  repeat split; vm_compute; reflexivity.
Qed.

(** C6, evaluated where it fails.  With the query 3 the text filter
    keeps the third record of the sample, whose [id] is 3, although no
    field of the fixed columns of that record contains a 3. *)
Theorem C6_text_filter_matches_id :
  let r := book 3 "Ulysses" "Joyce" "Classic" (VNum 1922) "555" in
  currentData sample_session !! 2%nat = Some (Obj r) /\
  filteredData (setFilterText "3" sample_session) = Ok [Obj r] /\
  matches_text "3" r = true /\
  spec_matches_text "3" r = false /\
  includes (toLowerCase (ToString (get r "id"))) "3" = true.
Proof. repeat split; vm_compute; reflexivity. Qed.

(** ** Decoding *)

Lemma parsed_row_fields (index : nat) (r : raw_row) :
  get (parsed_row index r) "id" = VNum (Z.of_nat index + 1) /\
  get (parsed_row index r) "Title" = js_or (raw_get r "Title") (VStr "") /\
  get (parsed_row index r) "Author" = js_or (raw_get r "Author") (VStr "") /\
  get (parsed_row index r) "Genre" = js_or (raw_get r "Genre") (VStr "") /\
  get (parsed_row index r) "PublishedYear" = VNum (parseInt_or (raw_get r "PublishedYear") 0) /\
  get (parsed_row index r) "ISBN" = js_or (raw_get r "ISBN") (VStr "").
Proof. unfold get, parsed_row. repeat split; by simplify_map_eq. Qed.

Lemma or_empty_text (r : raw_row) (c : string) :
  js_or (raw_get r c) (VStr "") = VStr (default "" (r !! c)).
Proof.
  unfold raw_get, js_or. destruct (r !! c) as [s|]; [|done].
  simpl. by destruct (String.eqb_spec s "") as [->|].
Qed.

Lemma parsed_row_text (index : nat) (r : raw_row) (c : string) :
  c ∈ text_columns -> get (parsed_row index r) c = VStr (default "" (r !! c)).
Proof.
  intros Hc. destruct (parsed_row_fields index r) as (_ & H1 & H2 & H3 & _ & H4).
  unfold text_columns in Hc.
  repeat (apply elem_of_cons in Hc as [->|Hc]; [by rewrite <- or_empty_text|]).
  by apply elem_of_nil in Hc.
Qed.

Lemma parsedData_lookup (data : list raw_row) (index : nat) :
  parsedData data !! index = (fun r => Obj (parsed_row index r)) <$> data !! index.
Proof. unfold parsedData. apply list_lookup_imap. Qed.

(** C8: the decoded collection has one record per data row, in file
    order, the row at position [index] carrying [id] [index + 1]; an
    absent text field becomes the empty string (a present one is kept),
    and the year becomes 0 when the field is absent or [parseInt]
    fails on it (and the parsed integer otherwise). *)
Theorem C8_decode_defaults (data : list raw_row) :
  length (parsedData data) = length data /\
  forall (index : nat) (r : raw_row),
    data !! index = Some r ->
    exists b,
      parsedData data !! index = Some (Obj b) /\
      get b "id" = VNum (Z.of_nat index + 1) /\
      (forall c, c ∈ text_columns -> r !! c = None -> get b c = VStr "") /\
      (forall c s, c ∈ text_columns -> r !! c = Some s -> get b c = VStr s) /\
      (r !! "PublishedYear" = None -> get b "PublishedYear" = VNum 0) /\
      (forall s, r !! "PublishedYear" = Some s -> parseInt_string s = None ->
                 get b "PublishedYear" = VNum 0) /\
      (forall s z, r !! "PublishedYear" = Some s -> parseInt_string s = Some z ->
                   get b "PublishedYear" = VNum z).
Proof.
  split; [apply length_imap|].
  intros index r Hr. exists (parsed_row index r).
  rewrite parsedData_lookup, Hr.
  destruct (parsed_row_fields index r) as (Hid & _ & _ & _ & Hy & _).
  split; [done|]. split; [done|]. split; [|split].
  - intros c Hc Hnone. by rewrite parsed_row_text, Hnone.
  - intros c s Hc Hsome. by rewrite parsed_row_text, Hsome.
  - rewrite Hy. unfold parseInt_or, parseInt, raw_get. repeat split.
    + by intros ->.
    + intros s -> Hs. simpl. by rewrite Hs.
    + intros s z -> Hs. simpl. rewrite Hs. by destruct (Z.eqb_spec z 0) as [->|].
Qed.

Lemma C8_decode_defaults_witness :
  [raw "Dune" "Herbert" "Fantasy" "n/a" "111"] !! 0%nat =
    Some (raw "Dune" "Herbert" "Fantasy" "n/a" "111") /\
  exists b,
    parsedData [raw "Dune" "Herbert" "Fantasy" "n/a" "111"] !! 0%nat = Some (Obj b) /\
    get b "id" = VNum 1 /\
    get b "PublishedYear" = VNum 0.
Proof.
  split; [reflexivity|].
  destruct (C8_decode_defaults [raw "Dune" "Herbert" "Fantasy" "n/a" "111"]) as [_ H].
  destruct (H 0%nat (raw "Dune" "Herbert" "Fantasy" "n/a" "111") eq_refl)
    as (b & Hb & Hid & _ & _ & _ & Hy & _).
  exists b. split; [exact Hb|]. split; [exact Hid|].
  apply (Hy "n/a"); vm_compute; reflexivity.
Defined.

(** ** Sorting *)

Section Insertion.
Context {A : Type} (cmp : A -> A -> Z).

Lemma insert_sorted_perm (x : A) (l : list A) : insert_sorted cmp x l ≡ₚ x :: l.
Proof.
  induction l as [|y l IH]; simpl; [done|].
  destruct (0 <? cmp x y); [|done].
  rewrite IH. apply Permutation_swap.
Qed.

Lemma sort_perm (l : list A) : foldr (insert_sorted cmp) [] l ≡ₚ l.
Proof.
  induction l as [|x l IH]; simpl; [done|].
  by rewrite insert_sorted_perm, IH.
Qed.

(** Stability: a class of elements that never compare greater than
    one another keeps its order. *)
Section Stable.
Context (P : A -> Prop) `{!forall x, Decision (P x)}.
Hypothesis class_tied : forall x y, P x -> P y -> ~ 0 < cmp x y.

Lemma insert_sorted_filter (x : A) (l : list A) :
  filter P (insert_sorted cmp x l) = filter P (x :: l).
Proof.
  induction l as [|y l IH]; simpl; [done|].
  destruct (Z.ltb_spec 0 (cmp x y)) as [Hgt|_]; [|done].
  rewrite filter_cons, IH, !filter_cons.
  destruct (decide (P y)) as [Hy|]; [|done].
  destruct (decide (P x)) as [Hx|]; [|done].
  by destruct (class_tied x y).
Qed.

Lemma sort_filter (l : list A) :
  filter P (foldr (insert_sorted cmp) [] l) = filter P l.
Proof.
  induction l as [|x l IH]; simpl; [done|].
  by rewrite insert_sorted_filter, !filter_cons, IH.
Qed.
End Stable.

(** Order: where the comparator decides a transitive relation [R],
    the result is sorted by [R]. *)
Section Ordered.
Context (Q : A -> Prop) (R : A -> A -> Prop).
Hypothesis R_trans : forall x y z, Q x -> Q y -> Q z -> R x y -> R y z -> R x z.
Hypothesis not_greater : forall x y, Q x -> Q y -> ~ 0 < cmp x y -> R x y.
Hypothesis greater : forall x y, Q x -> Q y -> 0 < cmp x y -> R y x.

Lemma insert_sorted_Forall (S : A -> Prop) (x : A) (l : list A) :
  S x -> Forall S l -> Forall S (insert_sorted cmp x l).
Proof.
  intros Hx Hl. rewrite insert_sorted_perm. by constructor.
Qed.

Lemma insert_sorted_sorted (x : A) (l : list A) :
  Q x -> Forall Q l -> StronglySorted R l -> StronglySorted R (insert_sorted cmp x l).
Proof.
  intros Hx HQ Hs. induction Hs as [|y l Hs IH Hy]; simpl.
  - repeat constructor.
  - apply Forall_cons in HQ as [Qy HQ].
    destruct (Z.ltb_spec 0 (cmp x y)) as [Hgt|Hle].
    + constructor; [by apply IH|].
      apply insert_sorted_Forall; [by apply greater|done].
    + constructor; [by constructor|].
      constructor; [apply not_greater; [done..|lia]|].
      rewrite Forall_forall in Hy, HQ |- *. intros z Hz.
      apply (R_trans x y z); [done|done|by apply HQ| |by apply Hy].
      apply not_greater; [done..|lia].
Qed.

Lemma sort_sorted (l : list A) :
  Forall Q l -> StronglySorted R (foldr (insert_sorted cmp) [] l).
Proof.
  induction 1 as [|x l Hx Hl IH]; simpl; [constructor|].
  apply insert_sorted_sorted; [done| |done].
  by rewrite sort_perm.
Qed.
End Ordered.
End Insertion.

Lemma insert_sorted_objects (cmp : row -> row -> Z) (x : row) (l : list row) :
  insert_sorted (SortCompare cmp) (Obj x) (Obj <$> l) = Obj <$> insert_sorted cmp x l.
Proof.
  induction l as [|y l IH]; [done|].
  rewrite fmap_cons. simpl. destruct (0 <? cmp x y); [|done].
  by rewrite IH.
Qed.

Lemma js_sort_objects (cmp : row -> row -> Z) (rows : list row) :
  js_sort cmp (Obj <$> rows) = Obj <$> foldr (insert_sorted cmp) [] rows.
Proof.
  unfold js_sort. induction rows as [|r rows IH]; [done|].
  rewrite fmap_cons. simpl. by rewrite IH, insert_sorted_objects.
Qed.

Lemma spread_array_objects (rows : list row) : spread_array (Obj <$> rows) = Obj <$> rows.
Proof. unfold spread_array. rewrite <- list_fmap_compose. by apply list_fmap_ext. Qed.

Lemma string_ltb_irrefl (s : string) : String.ltb s s = false.
Proof.
  unfold String.ltb. pose proof (String.compare_antisym s s) as H.
  by destruct (String.compare s s).
Qed.

Lemma string_not_ltb_le (s t : string) : String.ltb t s = false -> String.le s t.
Proof.
  unfold String.ltb, String.le, String.leb. rewrite (String.compare_antisym t s).
  by destruct (String.compare s t); simpl.
Qed.

Lemma string_ltb_le (s t : string) : String.ltb s t = true -> String.le s t.
Proof.
  unfold String.ltb, String.le, String.leb. by destruct (String.compare s t); simpl.
Qed.

Lemma js_lt_irrefl (w : value) : js_lt w w = false.
Proof.
  destruct w as [|z|s]; simpl; [done|apply Z.ltb_irrefl|apply string_ltb_irrefl].
Qed.

Lemma compare_by_same_key (k : string) (d : direction) (a b : row) :
  get a k = get b k -> compare_by k d a b = 0.
Proof.
  intros H. unfold compare_by, js_gt. by rewrite H, js_lt_irrefl.
Qed.

Lemma natural_le_trans (x y z : value) :
  natural_le x y -> natural_le y z -> natural_le x z.
Proof.
  destruct x as [|a|s], y as [|b|t], z as [|c|u]; simpl; try done; [lia|].
  intros H1 H2. by transitivity t.
Qed.

(** On keys of one kind the comparator agrees with the natural order
    of the direction. *)
Lemma compare_by_order (k : string) (d : direction) (a b : row) :
  ((exists x y, get a k = VNum x /\ get b k = VNum y) \/
   (exists s t, get a k = VStr s /\ get b k = VStr t)) ->
  (~ 0 < compare_by k d a b -> key_le k d a b) /\
  (0 < compare_by k d a b -> key_le k d b a).
Proof.
  unfold compare_by, key_le, js_gt.
  intros [(x & y & -> & ->)|(s & t & -> & ->)]; simpl.
  - destruct (Z.ltb_spec x y), (Z.ltb_spec y x), d; split; intros; lia.
  - destruct (String.ltb s t) eqn:Hst, (String.ltb t s) eqn:Hts, d; split; intros H;
      try lia; auto using string_not_ltb_le, string_ltb_le.
Qed.

Lemma key_le_trans (k : string) (d : direction) (a b c : row) :
  key_le k d a b -> key_le k d b c -> key_le k d a c.
Proof.
  unfold key_le. destruct d; eauto using natural_le_trans.
Qed.

(** C7 (amended): on a sequence of records whose values under the sort
    key are all numbers or all strings, the sort stage returns a
    permutation that is ordered by the natural order of those values
    (of integers for numbers, by character code for strings), reversed
    for the descending direction, and records with the same key value
    keep their order. *)
Theorem C7_sort_stable_and_ordered (st : state) (k : string) (rows : list row) :
  key (sortConfig st) = Some k ->
  k <> "" ->
  numeric_keys k rows \/ text_keys k rows ->
  exists sorted,
    sortStage st (Obj <$> rows) = Obj <$> sorted /\
    sorted ≡ₚ rows /\
    StronglySorted (key_le k (dir (sortConfig st))) sorted /\
    forall w, filter (fun r => get r k = w) sorted = filter (fun r => get r k = w) rows.
Proof.
  intros Hk Hne Hkeys.
  exists (foldr (insert_sorted (compare_by k (dir (sortConfig st)))) [] rows).
  split; [|split; [apply sort_perm|split]].
  - unfold sortStage. rewrite Hk.
    destruct (String.eqb_spec k ""); [done|].
    by rewrite spread_array_objects, js_sort_objects.
  - destruct Hkeys as [Hn|Ht].
    + apply (sort_sorted _ (fun r => exists z, get r k = VNum z)); [| | |done].
      * intros x y z _ _ _. apply key_le_trans.
      * intros x y [a Ha] [b Hb]. apply compare_by_order. left. eauto.
      * intros x y [a Ha] [b Hb]. apply compare_by_order. left. eauto.
    + apply (sort_sorted _ (fun r => exists s, get r k = VStr s)); [| | |done].
      * intros x y z _ _ _. apply key_le_trans.
      * intros x y [a Ha] [b Hb]. apply compare_by_order. right. eauto.
      * intros x y [a Ha] [b Hb]. apply compare_by_order. right. eauto.
  - intros w. apply sort_filter.
    intros x y Hx Hy. rewrite compare_by_same_key; [lia|congruence].
Qed.

Lemma C7_sort_stable_and_ordered_witness :
  key (sortConfig (handleSort "PublishedYear" sample_session)) = Some "PublishedYear" /\
  "PublishedYear" <> "" /\
  (numeric_keys "PublishedYear" sample_books \/ text_keys "PublishedYear" sample_books) /\
  exists sorted,
    sortStage (handleSort "PublishedYear" sample_session) (Obj <$> sample_books)
      = Obj <$> sorted /\
    sorted ≡ₚ sample_books /\
    StronglySorted (key_le "PublishedYear" asc) sorted.
Proof.
  assert (numeric_keys "PublishedYear" sample_books) as Hn
    by (repeat constructor; eexists; reflexivity).
  split; [reflexivity|]. split; [discriminate|]. split; [by left|].
  destruct (C7_sort_stable_and_ordered (handleSort "PublishedYear" sample_session)
              "PublishedYear" sample_books eq_refl ltac:(discriminate) (or_introl Hn))
    as (sorted & Hs & Hp & Ho & _).
  exists sorted. split; [exact Hs|]. split; [exact Hp|exact Ho].
Defined.

(** C7 as stated fails on years that were typed: after the years of
    the two uploaded records are edited to 9 and 10, an ascending sort
    by year puts the record with 10 before the record with 9, the
    order of the two strings, not of the two numbers. *)
Lemma C7_typed_years_sort_as_text :
  exists st1 st2,
    handleCellEdit SrcAppJs 0 "PublishedYear" (VStr "9")
      (handleFileUpload_complete (take 2 sample_upload) initial_state) = Ok st1 /\
    handleCellEdit SrcAppJs 1 "PublishedYear" (VStr "10") st1 = Ok st2 /\
    let st := handleSort "PublishedYear" st2 in
    sortConfig st = {| key := Some "PublishedYear"; dir := asc |} /\
    filteredData st =
      Ok [Obj (book 2 "Emma" "Austen" "Classic" (VStr "10") "222");
          Obj (book 1 "Dune" "Herbert" "Fantasy" (VStr "9") "111")] /\
    ToNumber (VStr "10") = Some 10 /\
    ToNumber (VStr "9") = Some 9 /\
    ~ numeric_le (VStr "10") (VStr "9").
Proof.
  eexists. eexists. split; [vm_compute; reflexivity|].
  split; [vm_compute; reflexivity|]. cbv zeta.
  repeat split; try (vm_compute; reflexivity).
  vm_compute. intros H. by apply H.
Qed.

(** ** Numbers as text and back *)

Lemma read_digits_cons (radix : N) (a : ascii) (s : string) (acc : N) (seen : bool) :
  read_digits radix (String a s) acc seen =
  match digit_of radix a with
  | Some k => read_digits radix s (acc * radix + k)%N true
  | None => (acc, seen)
  end.
Proof. reflexivity. Qed.

Lemma read_digits_uint (d : uint) (acc : N) (seen : bool) :
  read_digits 10 (NilEmpty.string_of_uint d) acc seen =
  ((DecimalPos.Unsigned.of_lu (Decimal.rev d)
    + acc * 10 ^ DecimalPos.Unsigned.usize d)%N,
   seen || match d with Nil => false | _ => true end).
Proof.
  revert acc seen.
  induction d as [|d IH|d IH|d IH|d IH|d IH|d IH|d IH|d IH|d IH|d IH]; intros acc seen.
  1: { simpl. f_equal; [lia|by rewrite orb_false_r]. }
  all: cbn [NilEmpty.string_of_uint]; rewrite read_digits_cons;
    match goal with
    | |- context [digit_of 10 ?c] =>
        let v := eval vm_compute in (digit_of 10 c) in change (digit_of 10 c) with v
    end;
    cbv iota; rewrite IH, orb_true_r; f_equal;
    unfold Decimal.rev; cbn [Decimal.revapp];
    match goal with
    | |- context [DecimalPos.Unsigned.of_lu (revapp ?x (?c Nil))] =>
        rewrite (DecimalPos.Unsigned.of_lu_revapp x (c Nil))
    end;
    cbn [DecimalPos.Unsigned.of_lu DecimalPos.Unsigned.usize];
    rewrite N.pow_succ_r'; unfold Decimal.rev; ring.
Qed.

Lemma digits_plain (d : uint) :
  d <> Nil ->
  trimStart (NilEmpty.string_of_uint d) = NilEmpty.string_of_uint d /\
  strip_sign (NilEmpty.string_of_uint d) = (false, NilEmpty.string_of_uint d) /\
  strip_hex_prefix (NilEmpty.string_of_uint d) = (10%N, NilEmpty.string_of_uint d).
Proof.
  intros Hd. destruct d as [|d|d|d|d|d|d|d|d|d|d]; try done; repeat split.
  by destruct d.
Qed.

Lemma parseInt_digits (d : uint) :
  d <> Nil ->
  parseInt_string (NilEmpty.string_of_uint d) = Some (Z.of_N (Pos.of_uint d)) /\
  parseInt_string (String "-" (NilEmpty.string_of_uint d)) = Some (- Z.of_N (Pos.of_uint d)).
Proof.
  intros Hd. destruct (digits_plain d Hd) as (Ht & Hs & Hh).
  assert (read_digits 10 (NilEmpty.string_of_uint d) 0 false = (Pos.of_uint d, true)) as Hr.
  { rewrite read_digits_uint, DecimalPos.Unsigned.of_uint_alt.
    rewrite N.mul_0_l, N.add_0_r. by destruct d. }
  split.
  - unfold parseInt_string. by rewrite Ht, Hs, Hh, Hr.
  - unfold parseInt_string. cbn [trimStart]. change (is_space "-") with false.
    cbn [strip_sign]. by rewrite Hh, Hr.
Qed.

(** [parseInt(String(z))] is [z]. *)
Lemma parseInt_ToString (z : Z) : parseInt (VStr (ToString (VNum z))) = Some z.
Proof.
  unfold parseInt. simpl. destruct z as [|p|p]; [done| |].
  - pose proof (DecimalPos.Unsigned.to_uint_nonnil p) as Hn.
    simpl. replace (NilZero.string_of_uint (Pos.to_uint p))
      with (NilEmpty.string_of_uint (Pos.to_uint p)) by (by destruct (Pos.to_uint p)).
    rewrite (proj1 (parseInt_digits _ Hn)), DecimalPos.Unsigned.of_to. done.
  - pose proof (DecimalPos.Unsigned.to_uint_nonnil p) as Hn.
    simpl. replace (NilZero.string_of_uint (Pos.to_uint p))
      with (NilEmpty.string_of_uint (Pos.to_uint p)) by (by destruct (Pos.to_uint p)).
    rewrite (proj2 (parseInt_digits _ Hn)), DecimalPos.Unsigned.of_to. done.
Qed.

Lemma parseInt_or_ToString (z : Z) : parseInt_or (VStr (ToString (VNum z))) 0 = z.
Proof.
  unfold parseInt_or. rewrite parseInt_ToString. by destruct (Z.eqb_spec z 0).
Qed.

(** ** The codec round trip *)

Lemma string_app_cons (x : ascii) (a b : string) : String x a +:+ b = String x (a +:+ b).
Proof. reflexivity. Qed.

Lemma string_app_assoc (a b c : string) : (a +:+ b) +:+ c = a +:+ (b +:+ c).
Proof.
  induction a as [|x a IH]; [done|]. by rewrite !string_app_cons, IH.
Qed.

Lemma string_app_nil_r (a : string) : a +:+ "" = a.
Proof.
  induction a as [|x a IH]; [done|]. by rewrite string_app_cons, IH.
Qed.

Lemma scan_Quoted_quote (rows : list (list string)) (fields : list string) (buf s : string) :
  csv_scan Quoted rows fields buf (String dquote s) = csv_scan QuoteSeen rows fields buf s.
Proof. reflexivity. Qed.

Lemma scan_Quoted_other (rows : list (list string)) (fields : list string) (buf s : string)
  (a : ascii) :
  Ascii.eqb a dquote = false ->
  csv_scan Quoted rows fields buf (String a s) =
  csv_scan Quoted rows fields (buf +:+ String a "") s.
Proof. intros H. cbn [csv_scan]. by rewrite H. Qed.

Lemma scan_QuoteSeen_quote (rows : list (list string)) (fields : list string) (buf s : string) :
  csv_scan QuoteSeen rows fields buf (String dquote s) =
  csv_scan Quoted rows fields (buf +:+ String dquote "") s.
Proof. reflexivity. Qed.

Lemma scan_FieldStart_quote (rows : list (list string)) (fields : list string) (buf s : string) :
  csv_scan FieldStart rows fields buf (String dquote s) = csv_scan Quoted rows fields "" s.
Proof. reflexivity. Qed.

(** Reading the body of a quoted field up to its closing quote gives
    back the text that was escaped. *)
Lemma scan_quoted_body (s : string) (rows : list (list string)) (fields : list string)
  (buf tail : string) :
  csv_scan Quoted rows fields buf (escape_quotes s +:+ String dquote tail) =
  csv_scan QuoteSeen rows fields (buf +:+ s) tail.
Proof.
  revert buf. induction s as [|a s IH]; intros buf.
  - rewrite string_app_nil_r. reflexivity.
  - cbn [escape_quotes]. destruct (Ascii.eqb a dquote) eqn:Ha.
    + apply Ascii.eqb_eq in Ha as ->.
      rewrite !string_app_cons, scan_Quoted_quote, scan_QuoteSeen_quote, IH.
      by rewrite string_app_assoc.
    + rewrite string_app_cons, scan_Quoted_other by done.
      rewrite IH. by rewrite string_app_assoc.
Qed.

Lemma scan_quoted (s : string) (rows : list (list string)) (fields : list string)
  (tail : string) :
  csv_scan FieldStart rows fields "" (quoted s +:+ tail) =
  csv_scan QuoteSeen rows fields s tail.
Proof.
  unfold quoted. rewrite string_app_cons, string_app_assoc, string_app_cons.
  rewrite scan_FieldStart_quote. change ("" +:+ tail) with tail.
  by rewrite scan_quoted_body.
Qed.

Lemma scan_after_quote_comma (rows : list (list string)) (fields : list string)
  (buf tail : string) :
  csv_scan QuoteSeen rows fields buf ("," +:+ tail) =
  csv_scan FieldStart rows (fields ++ [buf]) "" tail.
Proof. reflexivity. Qed.

Lemma scan_after_quote_newline (rows : list (list string)) (fields : list string)
  (buf tail : string) :
  csv_scan QuoteSeen rows fields buf (LF +:+ tail) =
  csv_scan FieldStart (rows ++ [fields ++ [buf]]) [] "" tail.
Proof. reflexivity. Qed.

(** A line of quoted fields is read back as those fields; the reader
    is left after the closing quote of the last one. *)
Lemma scan_line (v : string) (vs : list string) (rows : list (list string))
  (fields : list string) (tail : string) :
  csv_scan FieldStart rows fields "" (join "," (quoted <$> (v :: vs)) +:+ tail) =
  csv_scan QuoteSeen rows (fields ++ removelast (v :: vs)) (List.last (v :: vs) "") tail.
Proof.
  revert v fields. induction vs as [|w vs IH]; intros v fields.
  - simpl join. rewrite scan_quoted. simpl. by rewrite app_nil_r.
  - change (join "," (quoted <$> v :: w :: vs))
      with (quoted v +:+ "," +:+ join "," (quoted <$> (w :: vs))).
    rewrite !string_app_assoc, scan_quoted, scan_after_quote_comma, IH.
    change (removelast (v :: w :: vs)) with (v :: removelast (w :: vs)).
    change (List.last (v :: w :: vs) "") with (List.last (w :: vs) "").
    by rewrite <- app_assoc.
Qed.

Lemma removelast_last_cons (v : string) (vs : list string) :
  removelast (v :: vs) ++ [List.last (v :: vs) ""] = v :: vs.
Proof. symmetry. by apply app_removelast_last. Qed.

(** The lines of a text, each a non-empty list of quoted fields, are
    read back one row per line. *)
Lemma scan_lines (ls : list (list string)) (rows : list (list string)) :
  Forall (fun l => l <> []) ls ->
  csv_scan FieldStart rows [] "" (join LF ((fun l => join "," (quoted <$> l)) <$> ls)) =
  rows ++ ls.
Proof.
  intros Hls. revert rows.
  induction Hls as [|l ls Hl Hls IH]; intros rows; [by rewrite app_nil_r|].
  destruct l as [|v vs]; [done|].
  destruct ls as [|l2 ls].
  - change (join LF ((fun l => join "," (quoted <$> l)) <$> [v :: vs]))
      with (join "," (quoted <$> (v :: vs))).
    rewrite <- (string_app_nil_r (join "," (quoted <$> (v :: vs)))), scan_line.
    rewrite app_nil_l.
    change (csv_scan QuoteSeen rows (removelast (v :: vs)) (List.last (v :: vs) "") "")
      with (rows ++ [removelast (v :: vs) ++ [List.last (v :: vs) ""]]).
    by rewrite removelast_last_cons.
  - change (join LF ((fun l => join "," (quoted <$> l)) <$> (v :: vs) :: l2 :: ls))
      with (join "," (quoted <$> (v :: vs)) +:+ LF +:+
            join LF ((fun l => join "," (quoted <$> l)) <$> l2 :: ls)).
    rewrite scan_line, scan_after_quote_newline, IH, app_nil_l, removelast_last_cons.
    by rewrite <- app_assoc.
Qed.

Lemma scan_header (tail : string) :
  csv_scan FieldStart [] [] "" (join "," columns +:+ LF +:+ tail) =
  csv_scan FieldStart [columns] [] "" tail.
Proof. reflexivity. Qed.

Lemma csv_line_quoted (book : row) : csv_line book = join "," (quoted <$> field_texts book).
Proof. reflexivity. Qed.

Lemma csv_lines_objects (books : list row) :
  csv_lines (Obj <$> books) = Ok (csv_line <$> books).
Proof.
  induction books as [|b books IH]; [done|].
  rewrite !fmap_cons. simpl. by rewrite IH.
Qed.

(** What the reader makes of the text [booksToCSV] writes: the header
    row, then the field texts of each record. *)
Lemma scan_booksToCSV (books : list row) :
  exists text,
    booksToCSV (Obj <$> books) = Ok text /\
    csv_scan FieldStart [] [] "" text = columns :: (field_texts <$> books).
Proof.
  unfold booksToCSV. rewrite csv_lines_objects. eexists. split; [reflexivity|].
  destruct books as [|b books]; [reflexivity|].
  change (join LF (join "," columns :: (csv_line <$> b :: books)))
    with (join "," columns +:+ LF +:+ join LF (csv_line <$> b :: books)).
  rewrite scan_header.
  assert (csv_line <$> b :: books =
          (fun l => join "," (quoted <$> l)) <$> (field_texts <$> b :: books)) as ->.
  { rewrite <- list_fmap_compose. by apply list_fmap_ext. }
  rewrite scan_lines; [done|].
  apply Forall_fmap, Forall_forall. by intros r _.
Qed.

Lemma keep_field_texts (books : list row) :
  List.filter (fun fields => negb (is_empty_line fields)) (field_texts <$> books)
  = field_texts <$> books.
Proof.
  induction books as [|b books IH]; [done|].
  rewrite fmap_cons. cbn [List.filter].
  change (is_empty_line (field_texts b)) with false. cbn [negb]. by rewrite IH.
Qed.

Lemma Papa_parse_booksToCSV (books : list row) :
  exists text,
    booksToCSV (Obj <$> books) = Ok text /\
    Papa_parse text = (fun b => list_to_map (zip columns (field_texts b))) <$> books.
Proof.
  destruct (scan_booksToCSV books) as (text & Htext & Hscan).
  exists text. split; [done|]. unfold Papa_parse. rewrite Hscan.
  cbn [List.filter]. change (is_empty_line columns) with false. cbn [negb].
  rewrite keep_field_texts.
  by rewrite <- list_fmap_compose.
Qed.

(** The row delivered for a written record holds the five field texts
    under the five column names. *)
Lemma raw_get_written (book : row) (c : string) :
  c ∈ columns ->
  raw_get (list_to_map (zip columns (field_texts book))) c = VStr (ToString (get book c)).
Proof.
  intros Hc. unfold columns in Hc. unfold raw_get.
  repeat (apply elem_of_cons in Hc as [->|Hc]; [reflexivity|]).
  by apply elem_of_nil in Hc.
Qed.

Lemma text_columns_columns (c : string) : c ∈ text_columns -> c ∈ columns.
Proof.
  unfold text_columns, columns. rewrite !elem_of_cons, !elem_of_nil. tauto.
Qed.

Lemma or_empty_string (s : string) : js_or (VStr s) (VStr "") = VStr s.
Proof. unfold js_or. simpl. by destruct (String.eqb_spec s "") as [->|]. Qed.

Lemma decode_written_field (i : nat) (book : row) (c : string) :
  well_typed book -> c ∈ columns ->
  get (parsed_row i (list_to_map (zip columns (field_texts book)))) c = get book c.
Proof.
  intros [Htext [z Hyear]] Hc.
  destruct (parsed_row_fields i (list_to_map (zip columns (field_texts book))))
    as (_ & H1 & H2 & H3 & H4 & H5).
  assert (forall c', c' ∈ text_columns ->
            js_or (raw_get (list_to_map (zip columns (field_texts book))) c') (VStr "")
            = get book c') as Ht.
  { intros c' Hc'. destruct (Htext c' Hc') as [s Hs].
    rewrite raw_get_written, Hs; [apply or_empty_string|].
    by apply text_columns_columns. }
  unfold columns in Hc.
  apply elem_of_cons in Hc as [->|Hc]; [rewrite H1; apply Ht; in_list|].
  apply elem_of_cons in Hc as [->|Hc]; [rewrite H2; apply Ht; in_list|].
  apply elem_of_cons in Hc as [->|Hc]; [rewrite H3; apply Ht; in_list|].
  apply elem_of_cons in Hc as [->|Hc].
  { rewrite H4, raw_get_written, Hyear by in_list. by rewrite parseInt_or_ToString. }
  apply elem_of_cons in Hc as [->|Hc]; [rewrite H5; apply Ht; in_list|].
  by apply elem_of_nil in Hc.
Qed.

(** Writing a well-typed collection and reading it back keeps the
    length and, record by record, the five fields. *)
Lemma decode_written (books : list row) :
  Forall well_typed books ->
  exists text,
    booksToCSV (Obj <$> books) = Ok text /\
    length (decode text) = length books /\
    forall (i : nat) (r : row),
      books !! i = Some r ->
      exists r',
        decode text !! i = Some (Obj r') /\
        (forall c, c ∈ columns -> get r' c = get r c) /\
        get r' "id" = VNum (Z.of_nat i + 1).
Proof.
  intros Hty. destruct (Papa_parse_booksToCSV books) as (text & Htext & Hparse).
  exists text. split; [done|]. unfold decode. rewrite Hparse. split.
  - unfold parsedData. by rewrite length_imap, length_fmap.
  - intros i r Hr. rewrite parsedData_lookup, list_lookup_fmap, Hr. simpl.
    eexists. split; [reflexivity|]. split.
    + intros c Hc. apply decode_written_field; [|done].
      rewrite Forall_forall in Hty. apply Hty. by eapply list_elem_of_lookup_2.
    + apply parsed_row_fields.
Qed.

(** C4: for a collection of records whose text fields are strings and
    whose year is an integer, [booksToCSV] returns a text, and decoding
    that text gives a collection of the same length whose record at
    every index has the same five field values, with [id] set to the
    index plus one. *)
Theorem C4_round_trip (books : list row) :
  Forall well_typed books ->
  exists text,
    booksToCSV (Obj <$> books) = Ok text /\
    length (decode text) = length books /\
    forall (i : nat) (r : row),
      books !! i = Some r ->
      exists r',
        decode text !! i = Some (Obj r') /\
        (forall c, c ∈ columns -> get r' c = get r c) /\
        get r' "id" = VNum (Z.of_nat i + 1).
Proof. apply decode_written. Qed.

Lemma well_typed_book (id : Z) (title author genre isbn : string) (year : Z) :
  well_typed (book id title author genre (VNum year) isbn).
Proof.
  split.
  - intros c Hc. unfold text_columns in Hc.
    repeat (apply elem_of_cons in Hc as [->|Hc]; [by eexists|]).
    by apply elem_of_nil in Hc.
  - by exists year.
Qed.

Lemma C4_round_trip_witness :
  Forall well_typed tricky_books /\
  exists text,
    booksToCSV (Obj <$> tricky_books) = Ok text /\
    length (decode text) = 2%nat.
Proof.
  assert (Forall well_typed tricky_books) as Hty
    by (repeat constructor; apply well_typed_book).
  split; [exact Hty|].
  destruct (C4_round_trip tricky_books Hty) as (text & Htext & Hlen & _).
  exists text. split; [exact Htext|exact Hlen].
Defined.

(** Decoding is a function of the five fields alone. *)
Lemma parsed_row_ext (i : nat) (r1 r2 : raw_row) :
  (forall c, c ∈ columns -> get (parsed_row i r1) c = get (parsed_row i r2) c) ->
  parsed_row i r1 = parsed_row i r2.
Proof.
  intros H.
  destruct (parsed_row_fields i r1) as (_ & A1 & A2 & A3 & A4 & A5).
  destruct (parsed_row_fields i r2) as (_ & B1 & B2 & B3 & B4 & B5).
  pose proof (H "Title" ltac:(in_list)) as E1. rewrite A1, B1 in E1.
  pose proof (H "Author" ltac:(in_list)) as E2. rewrite A2, B2 in E2.
  pose proof (H "Genre" ltac:(in_list)) as E3. rewrite A3, B3 in E3.
  pose proof (H "PublishedYear" ltac:(in_list)) as E4. rewrite A4, B4 in E4.
  pose proof (H "ISBN" ltac:(in_list)) as E5. rewrite A5, B5 in E5.
  unfold parsed_row. by rewrite E1, E2, E3, E4, E5.
Qed.

Lemma well_typed_parsed_row (i : nat) (r : raw_row) : well_typed (parsed_row i r).
Proof.
  split.
  - intros c Hc. rewrite parsed_row_text by done. by eexists.
  - destruct (parsed_row_fields i r) as (_ & _ & _ & _ & H & _). by eexists.
Qed.

Lemma parsedData_objects (data : list raw_row) :
  parsedData data = Obj <$> imap parsed_row data.
Proof. unfold parsedData. by rewrite fmap_imap. Qed.

(** An uploaded collection that is written out and read back is the
    same collection, [id]s included. *)
Corollary decode_encode_uploaded (data : list raw_row) :
  exists text,
    booksToCSV (parsedData data) = Ok text /\ decode text = parsedData data.
Proof.
  rewrite parsedData_objects.
  destruct (decode_written (imap parsed_row data)) as (text & Htext & Hlen & Hrec).
  { apply Forall_forall. intros r Hr.
    apply elem_of_lookup_imap in Hr as (i & raw0 & -> & _). apply well_typed_parsed_row. }
  exists text. split; [done|].
  apply list_eq. intros i. rewrite list_lookup_fmap.
  destruct (imap parsed_row data !! i) as [r|] eqn:Hr; simpl.
  - destruct (Hrec i r Hr) as (r' & Hr' & Hf & _). rewrite Hr'. do 2 f_equal.
    rewrite list_lookup_imap in Hr. destruct (data !! i) as [raw0|]; [|done].
    injection Hr as <-.
    unfold decode in Hr'. rewrite parsedData_lookup in Hr'.
    destruct (Papa_parse text !! i) as [raw1|]; [|done]. injection Hr' as <-.
    by apply parsed_row_ext.
  - apply lookup_ge_None_2. rewrite Hlen. by apply lookup_ge_None_1.
Qed.

(** * Further properties of the engine *)

(** ** Pager: coverage, page lengths, navigation *)

Lemma paginatedData_take_drop (view : array) (page : Z) (ps : positive) :
  1 <= page ->
  paginatedData view page ps =
  take (Pos.to_nat ps) (drop (Z.to_nat ((page - 1) * Z.pos ps)) view).
Proof.
  intros Hp. apply list_eq. intros k.
  unfold paginatedData, startIndex.
  rewrite lookup_slice_nonneg by nia.
  destruct (decide (Z.of_nat k < Z.pos ps)) as [Hk|Hk].
  - rewrite lookup_take_lt by lia. by rewrite lookup_drop.
  - symmetry. apply lookup_take_ge. lia.
Qed.

Lemma take_chunks {A : Type} (l : list A) (n m : nat) :
  concat ((fun j => take n (drop (j * n) l)) <$> seq 0 m) = take (m * n) l.
Proof.
  induction m as [|m IH]; [done|].
  rewrite seq_S, fmap_app, concat_app, IH. simpl. rewrite app_nil_r.
  rewrite take_take_drop. f_equal. lia.
Qed.

(** X1: the pages 1 to [totalPages] of a view, one after the other,
    are the view. *)
Theorem pages_cover_view (view : array) (ps : positive) :
  concat ((fun page => paginatedData view page ps) <$> pagesUpTo (totalPages view ps)) = view.
Proof.
  unfold pagesUpTo. rewrite <- list_fmap_compose.
  rewrite (list_fmap_ext _ (fun j => take (Pos.to_nat ps) (drop (j * Pos.to_nat ps) view))).
  - rewrite take_chunks. apply take_ge.
    pose proof (ceil_div_bounds (length view) ps) as Hb. unfold totalPages. nia.
  - intros i j _. simpl. rewrite paginatedData_take_drop by lia.
    do 2 f_equal. nia.
Qed.

(** X2: every page before the last holds exactly [pageSize] records,
    and the last page holds between one and [pageSize]. *)
Theorem page_lengths (view : array) (ps : positive) (page : Z) :
  1 <= page <= totalPages view ps ->
  (page < totalPages view ps ->
     length (paginatedData view page ps) = Pos.to_nat ps) /\
  (1 <= length (paginatedData view page ps) <= Pos.to_nat ps)%nat /\
  Z.of_nat (length (paginatedData view page ps)) =
    showingTo view page ps - showingFrom page ps + 1.
Proof.
  intros [Hp Hle]. rewrite paginatedData_take_drop by done.
  rewrite length_take, length_drop.
  pose proof (ceil_div_bounds (length view) ps) as Hb. unfold totalPages in *.
  unfold showingTo, showingFrom.
  repeat split; try intros Hlt; nia.
Qed.

Lemma page_lengths_witness :
  1 <= 401 <= totalPages long_view 25 /\
  (1 <= length (paginatedData long_view 401 25) <= Pos.to_nat 25)%nat.
Proof.
  assert (1 <= 401 <= totalPages long_view 25) as H by (vm_compute; split; discriminate).
  split; [exact H|]. exact (proj1 (proj2 (page_lengths long_view 25 401 H))).
Defined.

Lemma pageButtons_in_range (cp tp n : Z) : n ∈ pageButtons cp tp -> 1 <= n <= tp.
Proof.
  unfold pageButtons. intros Hn.
  apply list_elem_of_In, filter_In in Hn as [_ Hn].
  apply negb_true_iff, orb_false_iff in Hn as [H1 H2].
  apply Z.ltb_ge in H1, H2. lia.
Qed.

Lemma pageButtons_five (cp tp : Z) :
  5 <= tp -> 1 <= cp <= tp ->
  pageButtons cp tp =
  (fun i => pageNum cp tp i) <$> [0; 1; 2; 3; 4].
Proof.
  intros Htp Hcp. unfold pageButtons. rewrite Z.min_l by lia.
  change (seq 0 (Z.to_nat 5)) with [0; 1; 2; 3; 4]%nat.
  assert (forall i, 0 <= i <= 4 ->
            negb ((pageNum cp tp i <? 1) || (tp <? pageNum cp tp i)) = true) as Hin.
  { intros i Hi. apply negb_true_iff, orb_false_iff. rewrite !Z.ltb_ge.
    unfold pageNum. destruct (Z.leb_spec cp 3); [lia|].
    destruct (Z.leb_spec (tp - 2) cp); lia. }
  simpl. rewrite !Hin by lia. done.
Qed.

(** X3: the numbered page buttons of src/src/App.js carry numbers
    between 1 and [totalPages]; with five pages or more there are five
    of them, consecutive, and the current page is one of them; with
    fewer pages and the current page among the first three, they are
    the pages 1 to [totalPages]. *)
Theorem pageButtons_spec (cp tp : Z) :
  (forall n, n ∈ pageButtons cp tp -> 1 <= n <= tp) /\
  (5 <= tp -> 1 <= cp <= tp ->
     exists first,
       pageButtons cp tp = [first; first + 1; first + 2; first + 3; first + 4] /\
       first <= cp <= first + 4) /\
  (0 <= tp < 5 -> cp <= 3 -> pageButtons cp tp = pagesUpTo tp).
Proof.
  split; [intros n; apply pageButtons_in_range|]. split.
  - intros Htp Hcp. rewrite pageButtons_five by done.
    exists (pageNum cp tp 0). unfold pageNum.
    destruct (Z.leb_spec cp 3); [split; [done|lia]|].
    destruct (Z.leb_spec (tp - 2) cp); (split; [|lia]); simpl; repeat f_equal; lia.
  - intros Htp Hcp. unfold pageButtons, pagesUpTo, pageNum.
    destruct (Z.leb_spec cp 3); [|lia].
    rewrite Z.min_r by lia.
    assert (tp = 0 \/ tp = 1 \/ tp = 2 \/ tp = 3 \/ tp = 4) as Hcases by lia.
    destruct Hcases as [->|[->|[->|[->| ->]]]]; reflexivity.
Qed.

Lemma pageButtons_spec_witness :
  5 <= 401 /\ 1 <= 7 <= 401 /\
  exists first,
    pageButtons 7 401 = [first; first + 1; first + 2; first + 3; first + 4] /\
    first <= 7 <= first + 4.
Proof.
  assert (5 <= 401) as H1 by lia. assert (1 <= 7 <= 401) as H2 by lia.
  split; [exact H1|]. split; [exact H2|].
  exact (proj1 (proj2 (pageButtons_spec 7 401)) H1 H2).
Defined.

(** X4: from a page between 1 and [totalPages], every navigation
    button that can be clicked (First, Previous, Next, Last, a numbered
    button) asks for a page between 1 and [totalPages]. *)
Theorem navigation_stays_in_range (b : nav_button) (cp tp p : Z) :
  1 <= cp <= tp ->
  clickNav b cp tp = Some p ->
  1 <= p <= tp.
Proof.
  intros Hcp. destruct b as [| | | |n]; simpl.
  - destruct (Z.eqb_spec cp 1); [done|]. intros [= <-]. lia.
  - destruct (Z.eqb_spec cp 1); [done|]. intros [= <-]. lia.
  - destruct (Z.eqb_spec cp tp); [done|]. intros [= <-]. lia.
  - destruct (Z.eqb_spec cp tp); [done|]. intros [= <-]. lia.
  - case_bool_decide as Hn; [|done]. intros [= <-]. by apply pageButtons_in_range in Hn.
Qed.

Lemma navigation_stays_in_range_witness :
  1 <= 400 <= 401 /\ clickNav Next 400 401 = Some 401 /\ 1 <= 401 <= 401.
Proof.
  assert (1 <= 400 <= 401) as H by lia.
  split; [exact H|]. split; [reflexivity|].
  exact (navigation_stays_in_range Next 400 401 401 H eq_refl).
Defined.

(** X5: when the view is empty the pager counts 0 pages, so on page 1
    the Next and Last buttons are enabled; they lead to page 2 and to
    page 0, and both show no record. *)
Theorem empty_view_navigation (ps : positive) :
  totalPages [] ps = 0 /\
  clickNav Next 1 (totalPages [] ps) = Some 2 /\
  clickNav Last 1 (totalPages [] ps) = Some 0 /\
  (forall page, paginatedData [] page ps = []).
Proof.
  rewrite (ceil_div_0 ps : totalPages [] ps = 0).
  repeat split. intros page. unfold paginatedData, slice. by rewrite drop_nil, take_nil.
Qed.

(** ** Edits: what they write and what they leave alone *)

Lemma AppJs_hasChanges_Some (r o : row) :
  AppJs.hasChanges r (Some o) = Ok (changed SrcAppJs r (Some o)).
Proof. unfold AppJs.hasChanges. by apply js_some_total. Qed.

(** A successful edit in closed form. *)
Lemma edit_result (f : revision) (st st' : state) (i : nat) (c : string) (v : value) :
  handleCellEdit f i c v st = Ok st' ->
  let r := <[c := v]> (spread_obj (arr_get (currentData st) i)) in
  st' = with_edit st (arr_set i (Obj r) (spread_array (currentData st)))
                  (track (changed f r (arr_get (originalData st) i)) i r (edits st)) /\
  (f = SrcAppJs -> is_Some (arr_get (originalData st) i)).
Proof.
  destruct f; simpl; intros Hed.
  - unfold AppJs.handleCellEdit in Hed.
    destruct (arr_get (originalData st) i) as [o|] eqn:Ho.
    + rewrite AppJs_hasChanges_Some in Hed. simpl in Hed. injection Hed as <-.
      unfold AppJs.newData. rewrite arr_get_spread. split; [done|]. by eexists.
    + by rewrite AppJs_hasChanges_missing in Hed.
  - unfold Part000.handleCellEdit in Hed. injection Hed as <-.
    unfold Part000.updatedRow. rewrite arr_get_spread. split; [done|]. intros [=].
Qed.

Lemma edit_succeeds (f : revision) (st : state) (i : nat) (c : string) (v : value) :
  (f = SrcAppJs -> is_Some (arr_get (originalData st) i)) ->
  exists st', handleCellEdit f i c v st = Ok st'.
Proof.
  destruct f; simpl; intros Ho.
  - destruct (Ho eq_refl) as [o Hso]. unfold AppJs.handleCellEdit.
    rewrite Hso, AppJs_hasChanges_Some. by eexists.
  - by eexists.
Qed.

(** X6: a successful edit writes the addressed field and nothing else:
    every other field of every record reads as before, the original
    collection, the filters, the sort and the page are unchanged. *)
Theorem edit_frame (f : revision) (st st' : state) (i : nat) (c : string) (v : value) :
  handleCellEdit f i c v st = Ok st' ->
  field (currentData st') i c = v /\
  (forall j d, j <> i \/ d <> c ->
     field (currentData st') j d = field (currentData st) j d) /\
  originalData st' = originalData st /\
  (filterText st', filterGenre st', yearRange st', showOnlyEdited st', sortConfig st')
    = (filterText st, filterGenre st, yearRange st, showOnlyEdited st, sortConfig st) /\
  (currentPage st', pageSize st') = (currentPage st, pageSize st).
Proof.
  intros Hed. destruct (edit_result f st st' i c v Hed) as [-> _]. simpl.
  split; [|split; [|done]].
  - unfold field. rewrite arr_get_set. destruct (decide (i = i)); [|done].
    simpl. by rewrite get_insert, decide_True.
  - intros j d Hjd. unfold field. rewrite arr_get_set, arr_get_spread.
    destruct (decide (j = i)) as [->|]; [|done].
    simpl. rewrite get_insert, get_spread_obj.
    destruct (decide (c = d)) as [->|]; [|done]. by destruct Hjd.
Qed.

Lemma edit_frame_witness :
  exists st',
    handleCellEdit SrcAppJs 1 "Title" (VStr "Zeta") sample_session = Ok st' /\
    field (currentData st') 1 "Title" = VStr "Zeta" /\
    originalData st' = originalData sample_session.
Proof.
  destruct (edit_succeeds SrcAppJs sample_session 1 "Title" (VStr "Zeta")) as [st' Hst'].
  { intros _. vm_compute. by eexists. }
  exists st'. split; [exact Hst'|].
  destruct (edit_frame SrcAppJs sample_session st' 1 "Title" (VStr "Zeta") Hst')
    as (H1 & _ & H2 & _).
  split; [exact H1|exact H2].
Defined.

(** ** Invariants of a session *)


Lemma reachable_lengths (f : revision) (st : state) :
  reachable f st ->
  (length (originalData st) <= length (currentData st))%nat /\
  (f = SrcAppJs -> length (currentData st) = length (originalData st)).
Proof.
  induction 1 as [data st|data st|st st' j c v Hr IH Hc Hed|st Hr IH]; simpl;
    try (split; [lia|done]).
  - destruct (edit_result f st st' j c v Hed) as [-> Ho]. simpl.
    rewrite length_arr_set, length_spread. split; [lia|].
    intros Hf. destruct IH as [_ IH]. rewrite <- (IH Hf).
    destruct (Ho Hf) as [o Hso]. unfold arr_get in Hso.
    destruct (originalData st !! j) eqn:Hj; [|done].
    apply lookup_lt_Some in Hj. rewrite <- (IH Hf) in Hj. lia.
  - rewrite length_spread. split; [lia|done].
Qed.




(** X8: in every reachable session the current collection is never
    shorter than the original one, and in src/src/App.js the two have
    the same length: edits there never add or remove a record. *)
Theorem collection_lengths (f : revision) (st : state) :
  reachable f st ->
  (length (originalData st) <= length (currentData st))%nat /\
  (f = SrcAppJs -> length (currentData st) = length (originalData st)).
Proof. apply reachable_lengths. Qed.

Lemma collection_lengths_witness :
  reachable SrcAppJs sample_session /\
  length (currentData sample_session) = length (originalData sample_session).
Proof.
  split; [apply reach_upload|].
  exact (proj2 (collection_lengths SrcAppJs sample_session (reach_upload _ _ _)) eq_refl).
Defined.



(** ** Edits compose *)

Lemma edit_keeps_original (f : revision) (st st' : state) (i : nat) (c : string) (v : value) :
  handleCellEdit f i c v st = Ok st' -> originalData st' = originalData st.
Proof. intros Hed. by destruct (edit_result f st st' i c v Hed) as [-> _]. Qed.

Lemma spread_array_idemp (a : array) : spread_array (spread_array a) = spread_array a.
Proof.
  unfold spread_array. rewrite <- list_fmap_compose. apply list_fmap_ext.
  by intros _ [| |r] _.
Qed.

Lemma spread_array_insert (a : array) (i : nat) (r : row) :
  spread_array (<[i := Obj r]> a) = <[i := Obj r]> (spread_array a).
Proof. unfold spread_array. by rewrite list_fmap_insert. Qed.

Lemma arr_set_in_range (a : array) (i : nat) (c : cell) :
  (i < length a)%nat -> arr_set i c a = <[i := c]> a.
Proof. intros Hi. unfold arr_set. by rewrite bool_decide_true. Qed.

Lemma arr_get_insert (a : array) (i j : nat) (r : row) :
  (j < length a)%nat ->
  arr_get (<[j := Obj r]> a) i = if decide (i = j) then Some r else arr_get a i.
Proof.
  intros Hj. rewrite <- (arr_set_in_range a j (Obj r) Hj). apply arr_get_set.
Qed.

Lemma track_overwrite (b b0 : bool) (i : nat) (r r0 : row) (m : gmap nat row) :
  track b i r (track b0 i r0 m) = track b i r m.
Proof.
  unfold track. destruct b, b0.
  - apply insert_insert_eq.
  - apply insert_delete_eq.
  - apply delete_insert_eq.
  - apply delete_delete_eq.
Qed.

Lemma track_commute (b b' : bool) (i j : nat) (r r' : row) (m : gmap nat row) :
  i <> j -> track b i r (track b' j r' m) = track b' j r' (track b i r m).
Proof.
  intros Hne. unfold track. destruct b, b'.
  - by apply insert_insert_ne.
  - by rewrite delete_insert_ne.
  - by rewrite delete_insert_ne.
  - apply delete_delete.
Qed.

(** An edit inside the collection, in closed form. *)
Lemma edit_in_range (f : revision) (st st' : state) (i : nat) (c : string) (v : value) :
  (i < length (currentData st))%nat ->
  handleCellEdit f i c v st = Ok st' ->
  st' = with_edit st
          (<[i := Obj (<[c := v]> (spread_obj (arr_get (currentData st) i)))]>
             (spread_array (currentData st)))
          (track (changed f (<[c := v]> (spread_obj (arr_get (currentData st) i)))
                          (arr_get (originalData st) i))
                 i (<[c := v]> (spread_obj (arr_get (currentData st) i))) (edits st)).
Proof.
  intros Hi Hed. destruct (edit_result f st st' i c v Hed) as [-> _].
  cbv zeta. by rewrite arr_set_in_range by (by rewrite length_spread).
Qed.

(** X10: the last write to a cell wins: inside the collection, editing
    a cell to one value and then to another leaves the session exactly
    as editing it to the second value alone. *)
Theorem last_edit_wins (f : revision) (st st1 st2 : state) (i : nat) (c : string)
  (v w : value) :
  (i < length (currentData st))%nat ->
  handleCellEdit f i c v st = Ok st1 ->
  handleCellEdit f i c w st1 = Ok st2 ->
  handleCellEdit f i c w st = Ok st2.
Proof.
  intros Hi H1 H2.
  pose proof (edit_result f st st1 i c v H1) as [_ Ho].
  destruct (edit_succeeds f st i c w Ho) as [st2' H2'].
  rewrite H2'. f_equal.
  apply edit_in_range in H1, H2'; [|done..].
  apply edit_in_range in H2; [|subst st1; simpl; by rewrite length_insert, length_spread].
  subst st1 st2 st2'. simpl.
  rewrite arr_get_insert by (by rewrite length_spread).
  rewrite decide_True by done. simpl.
  rewrite insert_insert_eq, spread_array_insert, spread_array_idemp.
  rewrite list_insert_insert_eq, track_overwrite. done.
Qed.

Lemma last_edit_wins_witness :
  exists st1 st2,
    (0 < length (currentData sample_session))%nat /\
    handleCellEdit SrcAppJs 0 "Title" (VStr "Du") sample_session = Ok st1 /\
    handleCellEdit SrcAppJs 0 "Title" (VStr "Dune!") st1 = Ok st2 /\
    handleCellEdit SrcAppJs 0 "Title" (VStr "Dune!") sample_session = Ok st2.
Proof.
  assert (0 < length (currentData sample_session))%nat as Hlen by (vm_compute; lia).
  destruct (edit_succeeds SrcAppJs sample_session 0 "Title" (VStr "Du")) as [st1 H1].
  { intros _. vm_compute. by eexists. }
  destruct (edit_succeeds SrcAppJs st1 0 "Title" (VStr "Dune!")) as [st2 H2].
  { intros _. rewrite (edit_keeps_original _ _ _ _ _ _ H1). vm_compute. by eexists. }
  exists st1, st2. split; [exact Hlen|]. split; [exact H1|]. split; [exact H2|].
  exact (last_edit_wins SrcAppJs sample_session st1 st2 0 "Title" (VStr "Du") (VStr "Dune!")
           Hlen H1 H2).
Defined.

(** X11: edits of two different cells inside the collection commute:
    made in either order they succeed alike and leave the same
    session. *)
Theorem edits_commute (f : revision) (st st1 st12 : state) (i j : nat) (c d : string)
  (v w : value) :
  i <> j \/ c <> d ->
  (i < length (currentData st))%nat ->
  (j < length (currentData st))%nat ->
  handleCellEdit f i c v st = Ok st1 ->
  handleCellEdit f j d w st1 = Ok st12 ->
  exists st2,
    handleCellEdit f j d w st = Ok st2 /\
    handleCellEdit f i c v st2 = Ok st12.
Proof.
  intros Hne Hi Hj H1 H12.
  pose proof (edit_result f st st1 i c v H1) as [_ Ho1].
  pose proof (edit_result f st1 st12 j d w H12) as [_ Ho12].
  assert (originalData st1 = originalData st) as Horig1
    by (by apply edit_keeps_original in H1).
  rewrite Horig1 in Ho12.
  destruct (edit_succeeds f st j d w Ho12) as [st2 H2].
  assert (originalData st2 = originalData st) as Horig2
    by (by apply edit_keeps_original in H2).
  destruct (edit_succeeds f st2 i c v) as [st21 H21]; [by rewrite Horig2|].
  exists st2. split; [done|]. rewrite H21. f_equal.
  apply edit_in_range in H1, H2; [|done..].
  apply edit_in_range in H12; [|subst st1; simpl; by rewrite length_insert, length_spread].
  apply edit_in_range in H21; [|subst st2; simpl; by rewrite length_insert, length_spread].
  subst st1 st12 st2 st21. simpl.
  rewrite !arr_get_insert by (by rewrite length_spread).
  rewrite !spread_array_insert, !spread_array_idemp, !arr_get_spread.
  destruct (decide (j = i)) as [->|Hji].
  - rewrite decide_True by done. simpl.
    assert (c <> d) as Hcd by (destruct Hne; done).
    rewrite !list_insert_insert_eq, !track_overwrite.
    by rewrite (insert_insert_ne _ c d) by done.
  - rewrite (decide_False (P := i = j)) by done.
    rewrite list_insert_insert_ne by done.
    by rewrite track_commute by done.
Qed.

Lemma edits_commute_witness :
  exists st1 st12 st2,
    (0 <> 1 \/ "Title" <> "Author")%nat /\
    (0 < length (currentData sample_session))%nat /\
    (1 < length (currentData sample_session))%nat /\
    handleCellEdit UnnamedPart000 0 "Title" (VStr "A") sample_session = Ok st1 /\
    handleCellEdit UnnamedPart000 1 "Author" (VStr "B") st1 = Ok st12 /\
    handleCellEdit UnnamedPart000 1 "Author" (VStr "B") sample_session = Ok st2 /\
    handleCellEdit UnnamedPart000 0 "Title" (VStr "A") st2 = Ok st12.
Proof.
  assert (0 < length (currentData sample_session))%nat as H0 by (vm_compute; lia).
  assert (1 < length (currentData sample_session))%nat as H1 by (vm_compute; lia).
  destruct (edit_succeeds UnnamedPart000 sample_session 0 "Title" (VStr "A")) as [st1 E1];
    [done|].
  destruct (edit_succeeds UnnamedPart000 st1 1 "Author" (VStr "B")) as [st12 E12]; [done|].
  assert (0 <> 1 \/ "Title" <> "Author")%nat as Hne by (left; lia).
  destruct (edits_commute UnnamedPart000 sample_session st1 st12 0 1 "Title" "Author"
              (VStr "A") (VStr "B") Hne H0 H1 E1 E12) as (st2 & E2 & E21).
  exists st1, st12, st2. repeat split; done.
Defined.

(** ** Reset after edits *)

Lemma evolves_original (f : revision) (st st' : state) :
  evolves f st st' -> originalData st' = originalData st.
Proof.
  induction 1 as [|st1 st2 i c v _ IH Hed|st1 _ IH]; [done| |done].
  by rewrite (edit_keeps_original f st1 st2 i c v Hed).
Qed.

(** X12: whatever edits and resets follow a load, the original
    collection stays the loaded one, and a reset brings the current
    collection back to it, record for record (to the very same array
    when the loaded one has no holes, as every upload has) with an
    empty delta set. *)
Theorem reset_undoes_all_edits (f : revision) (data : array) (st0 st : state) :
  evolves f (load_data data st0) st ->
  originalData st = data /\
  (forall i, arr_get (currentData (handleResetEdits st)) i = arr_get data i) /\
  (Forall (fun c => c <> Hole) data -> currentData (handleResetEdits st) = data) /\
  edits (handleResetEdits st) = ∅.
Proof.
  intros Hev. apply evolves_original in Hev. simpl in Hev.
  split; [done|]. simpl. rewrite Hev. split; [|split; [|done]].
  - intros i. apply arr_get_spread.
  - apply spread_array_dense.
Qed.

Lemma reset_undoes_all_edits_witness :
  exists st,
    evolves SrcAppJs (load_data (parsedData sample_upload) initial_state) st /\
    currentData (handleResetEdits st) = parsedData sample_upload.
Proof.
  destruct (edit_succeeds SrcAppJs (load_data (parsedData sample_upload) initial_state)
              2 "Genre" (VStr "Epic")) as [st Hst].
  { intros _. vm_compute. by eexists. }
  assert (evolves SrcAppJs (load_data (parsedData sample_upload) initial_state) st) as Hev
    by (eapply evolves_edit; [apply evolves_here|exact Hst]).
  exists st. split; [exact Hev|].
  destruct (reset_undoes_all_edits SrcAppJs (parsedData sample_upload) initial_state st Hev)
    as (_ & _ & H & _).
  apply H, parsedData_dense.
Defined.

(** ** The query pipeline on collections of objects *)

Lemma filter_all_true {A : Type} (p : A -> bool) (l : list A) :
  (forall x, p x = true) -> List.filter p l = l.
Proof.
  intros Hp. induction l as [|x l IH]; [done|]. simpl. by rewrite Hp, IH.
Qed.

Lemma run_stage_dense (st : state) (s : stage) (rows : list row) :
  s <> EditedFilter ->
  run_stage st s (Obj <$> rows) = Ok (Obj <$> List.filter (stage_keeps st s) rows).
Proof.
  intros Hs. destruct s; [| | |done]; unfold run_stage, stage_keeps.
  - unfold textStage. destruct (String.eqb (filterText st) "").
    + by rewrite filter_all_true.
    + by apply js_filter_dense.
  - unfold genreStage. destruct (String.eqb (filterGenre st) "").
    + by rewrite filter_all_true.
    + by apply js_filter_dense.
  - unfold yearStage. by apply js_filter_dense.
Qed.

Lemma filter_filter_all {A : Type} (p q : A -> bool) (l : list A) :
  List.filter q (List.filter p l) = List.filter (fun x => p x && q x) l.
Proof.
  induction l as [|x l IH]; [done|]. simpl.
  destruct (p x); simpl; [|done]. destruct (q x); by rewrite IH.
Qed.

Lemma run_stages_dense (st : state) (order : list stage) (rows : list row) :
  EditedFilter ∉ order ->
  run_stages st order (Obj <$> rows) =
  Ok (Obj <$> List.filter (fun r => forallb (fun s => stage_keeps st s r) order) rows).
Proof.
  revert rows. induction order as [|s order IH]; intros rows Hno.
  - simpl. by rewrite filter_all_true.
  - apply not_elem_of_cons in Hno as [Hs Hno].
    cbn [run_stages]. rewrite run_stage_dense by done. simpl.
    rewrite IH by done. by rewrite filter_filter_all.
Qed.

Lemma run_stages_app (st : state) (o1 o2 : list stage) (a : array) :
  run_stages st (o1 ++ o2) a = (a' ← run_stages st o1 a; run_stages st o2 a').
Proof.
  revert a. induction o1 as [|s o1 IH]; intros a; [done|]. simpl.
  destruct (run_stage st s a); [apply IH|done].
Qed.

Lemma forallb_perm {A : Type} (p : A -> bool) (l1 l2 : list A) :
  l1 ≡ₚ l2 -> forallb p l1 = forallb p l2.
Proof.
  induction 1 as [|x l1 l2 _ IH|x y l|l1 l2 l3 _ IH1 _ IH2]; simpl.
  - done.
  - by rewrite IH.
  - destruct (p x), (p y); done.
  - congruence.
Qed.

(** X13: on a collection of objects the text, genre and year filters
    can run in any order and any number of times: the records kept are
    those that pass each of them, in their order in the collection. *)
Theorem content_filters_commute (st : state) (order1 order2 : list stage) (rows : list row) :
  order1 ≡ₚ order2 ->
  EditedFilter ∉ order1 ->
  run_stages st order1 (Obj <$> rows) = run_stages st order2 (Obj <$> rows) /\
  run_stages st order1 (Obj <$> rows) =
    Ok (Obj <$> List.filter (fun r => forallb (fun s => stage_keeps st s r) order1) rows).
Proof.
  intros Hp Hno. split; [|by apply run_stages_dense].
  rewrite !run_stages_dense; [|by rewrite <- Hp|done].
  do 2 f_equal. apply List.filter_ext. intros r. by apply forallb_perm.
Qed.

Lemma content_filters_commute_witness :
  ([TextFilter; GenreFilter; YearFilter] ≡ₚ [YearFilter; TextFilter; GenreFilter]) /\
  (EditedFilter ∉ [TextFilter; GenreFilter; YearFilter]) /\
  (run_stages (setFilterGenre "Classic" sample_session) [TextFilter; GenreFilter; YearFilter]
             (Obj <$> sample_books) =
  run_stages (setFilterGenre "Classic" sample_session) [YearFilter; TextFilter; GenreFilter]
             (Obj <$> sample_books)).
Proof.
  assert ([TextFilter; GenreFilter; YearFilter] ≡ₚ [YearFilter; TextFilter; GenreFilter])
    as Hp by (transitivity [TextFilter; YearFilter; GenreFilter];
              [apply perm_skip, perm_swap|apply perm_swap]).
  assert (EditedFilter ∉ [TextFilter; GenreFilter; YearFilter]) as Hno
    by (rewrite !not_elem_of_cons; repeat split; [discriminate..|apply not_elem_of_nil]).
  split; [exact Hp|]. split; [exact Hno|].
  exact (proj1 (content_filters_commute (setFilterGenre "Classic" sample_session)
                  _ _ sample_books Hp Hno)).
Defined.

Lemma filter_indexed_sublist {A : Type} (p : A -> nat -> bool) (k : nat) (l : list A) :
  filter_indexed p k l `sublist_of` l.
Proof.
  revert k. induction l as [|x l IH]; intros k; simpl; [constructor|].
  destruct (p x k); [by apply sublist_skip|by apply sublist_cons].
Qed.

Lemma list_filter_sublist {A : Type} (p : A -> bool) (l : list A) :
  List.filter p l `sublist_of` l.
Proof.
  induction l as [|x l IH]; simpl; [constructor|].
  destruct (p x); [by apply sublist_skip|by apply sublist_cons].
Qed.

Lemma sortStage_dense (st : state) (rows : list row) :
  exists sorted,
    sortStage st (Obj <$> rows) = Obj <$> sorted /\ sorted ≡ₚ rows /\
    (key (sortConfig st) = None \/ key (sortConfig st) = Some "" -> sorted = rows).
Proof.
  unfold sortStage. destruct (key (sortConfig st)) as [k|] eqn:Hk.
  - destruct (String.eqb_spec k "") as [->|Hne].
    + exists rows. by repeat split.
    + eexists. rewrite spread_array_objects, js_sort_objects.
      split; [done|]. split; [apply sort_perm|]. intros [|[= ->]]; done.
  - exists rows. by repeat split.
Qed.

(** X14: on a collection of objects the pipeline never raises, and the
    view is made of records of the collection: never more than there
    are, each at most as often as it occurs, and, when no sort key is
    set, in the order of the collection. *)
Theorem view_is_sub_collection (st : state) (rows : list row) :
  currentData st = Obj <$> rows ->
  exists view,
    filteredData st = Ok (Obj <$> view) /\
    view ⊆+ rows /\
    (length view <= length rows)%nat /\
    (key (sortConfig st) = None -> view `sublist_of` rows).
Proof.
  intros Hcur. rewrite filteredData_stages, Hcur. unfold source_order.
  rewrite (run_stages_app st [TextFilter; GenreFilter; YearFilter] [EditedFilter]).
  rewrite run_stages_dense
    by (rewrite !not_elem_of_cons; repeat split; [discriminate..|apply not_elem_of_nil]).
  set (kept := List.filter _ rows).
  assert (kept `sublist_of` rows) as Hkept by apply list_filter_sublist.
  simpl. rewrite editedStage_dense. simpl.
  set (shown := if showOnlyEdited st then filter_indexed _ 0 kept else kept).
  assert (shown `sublist_of` rows) as Hshown.
  { subst shown. destruct (showOnlyEdited st); [|done].
    etransitivity; [apply filter_indexed_sublist|done]. }
  destruct (sortStage_dense st shown) as (view & Hview & Hperm & Hsame).
  exists view. rewrite Hview. split; [done|].
  assert (view ⊆+ rows) as Hsub
    by (rewrite Hperm; by apply sublist_submseteq).
  split; [done|]. split; [by apply submseteq_length|].
  intros Hk. rewrite Hsame by (by left). done.
Qed.

Lemma view_is_sub_collection_witness :
  currentData sample_session = Obj <$> sample_books /\
  exists view,
    filteredData sample_session = Ok (Obj <$> view) /\ view ⊆+ sample_books.
Proof.
  assert (currentData sample_session = Obj <$> sample_books) as H
    by (vm_compute; reflexivity).
  split; [exact H|].
  destruct (view_is_sub_collection sample_session sample_books H) as (view & Hv & Hs & _).
  exists view. split; [exact Hv|exact Hs].
Defined.

(** ** Undefined elements *)

Lemma js_filter_from_undef (cb : cell -> nat -> outcome bool) (k : nat) (a : array) :
  (forall i, cb Undef i = Throw TypeError) ->
  Undef ∈ a -> js_filter_from cb k a = Throw TypeError.
Proof.
  intros Hcb. revert k. induction a as [|c a IH]; intros k Hin.
  - by apply elem_of_nil in Hin.
  - apply elem_of_cons in Hin as [<-|Hin].
    + simpl. by rewrite Hcb.
    + destruct c as [| |r]; simpl.
      * by apply IH.
      * by rewrite Hcb.
      * destruct (cb (Obj r) k) as [b|[]]; [|done]. simpl. by rewrite IH.
Qed.

Lemma js_filter_from_clean (cb : cell -> nat -> outcome bool) (k : nat) (a : array) :
  (forall r i, exists b, cb (Obj r) i = Ok b) ->
  Undef ∉ a ->
  exists a', js_filter_from cb k a = Ok a' /\ Undef ∉ a'.
Proof.
  intros Hcb. revert k. induction a as [|c a IH]; intros k Hno.
  - exists []. split; [done|]. apply not_elem_of_nil.
  - apply not_elem_of_cons in Hno as [Hc Hno].
    destruct (IH (S k) Hno) as (a' & Ha' & Hno').
    destruct c as [| |r]; simpl; [by exists a'|done|].
    destruct (Hcb r k) as [b ->]. simpl. rewrite Ha'. simpl.
    destruct b; eexists; (split; [done|]); [|done].
    by apply not_elem_of_cons.
Qed.

Lemma run_stage_clean (st : state) (s : stage) (a : array) :
  Undef ∉ a -> exists a', run_stage st s a = Ok a' /\ Undef ∉ a'.
Proof.
  intros Hno. destruct s; simpl.
  - unfold textStage. destruct (String.eqb (filterText st) ""); [by exists a|].
    apply js_filter_from_clean; [|done]. intros r i. by eexists.
  - unfold genreStage. destruct (String.eqb (filterGenre st) ""); [by exists a|].
    apply js_filter_from_clean; [|done]. intros r i. by eexists.
  - apply js_filter_from_clean; [|done]. intros r i. by eexists.
  - unfold editedStage. destruct (showOnlyEdited st); [|by exists a].
    apply js_filter_from_clean; [|done]. intros r i. by eexists.
Qed.

Lemma filteredData_undef (st : state) :
  Undef ∈ currentData st -> filteredData st = Throw TypeError.
Proof.
  intros Hin. unfold filteredData.
  assert (textStage st (currentData st) = Throw TypeError \/
          textStage st (currentData st) = Ok (currentData st)) as [->| ->]; [|done|].
  { unfold textStage. destruct (String.eqb (filterText st) ""); [by right|left].
    by apply js_filter_from_undef. }
  simpl.
  assert (genreStage st (currentData st) = Throw TypeError \/
          genreStage st (currentData st) = Ok (currentData st)) as [->| ->]; [|done|].
  { unfold genreStage. destruct (String.eqb (filterGenre st) ""); [by right|left].
    by apply js_filter_from_undef. }
  simpl. unfold yearStage, js_filter. by rewrite js_filter_from_undef.
Qed.

Lemma filteredData_clean (st : state) :
  Undef ∉ currentData st -> exists view, filteredData st = Ok view.
Proof.
  intros Hno. unfold filteredData.
  destruct (run_stage_clean st TextFilter _ Hno) as (a1 & H1 & Hno1).
  destruct (run_stage_clean st GenreFilter _ Hno1) as (a2 & H2 & Hno2).
  destruct (run_stage_clean st YearFilter _ Hno2) as (a3 & H3 & Hno3).
  destruct (run_stage_clean st EditedFilter _ Hno3) as (a4 & H4 & Hno4).
  simpl in H1, H2, H3, H4. rewrite H1. simpl. rewrite H2. simpl. rewrite H3. simpl.
  rewrite H4. simpl. by eexists.
Qed.

Lemma csv_lines_undef (a : array) : Undef ∈ a -> csv_lines a = Throw TypeError.
Proof.
  induction a as [|c a IH]; intros Hin; [by apply elem_of_nil in Hin|].
  apply elem_of_cons in Hin as [<-|Hin]; [done|].
  destruct c as [| |r]; simpl; [by apply IH|done|]. by rewrite IH.
Qed.

Lemma csv_lines_clean (a : array) : Undef ∉ a -> exists ls, csv_lines a = Ok ls.
Proof.
  induction a as [|c a IH]; intros Hno; [by exists []|].
  apply not_elem_of_cons in Hno as [Hc Hno]. destruct (IH Hno) as [ls Hls].
  destruct c as [| |r]; simpl; [by exists ls|done|]. rewrite Hls. by eexists.
Qed.

(** X15: rendering the view and exporting the collection raise a
    [TypeError] exactly when the current collection holds an undefined
    element; holes alone are skipped by both. *)
Theorem raises_iff_undefined (st : state) :
  (filteredData st = Throw TypeError <-> Undef ∈ currentData st) /\
  (booksToCSV (currentData st) = Throw TypeError <-> Undef ∈ currentData st).
Proof.
  split; split.
  - intros Hth. destruct (decide (Undef ∈ currentData st)) as [|Hno]; [done|].
    destruct (filteredData_clean st Hno) as [view Hv]. congruence.
  - apply filteredData_undef.
  - intros Hth. destruct (decide (Undef ∈ currentData st)) as [|Hno]; [done|].
    unfold booksToCSV in Hth. destruct (csv_lines_clean _ Hno) as [ls Hls].
    by rewrite Hls in Hth.
  - intros Hin. unfold booksToCSV. by rewrite csv_lines_undef.
Qed.

Lemma raises_iff_undefined_witness :
  Undef ∈ [Obj ∅; Undef] /\
  filteredData (handleGenerateData [Obj ∅; Undef] initial_state) = Throw TypeError.
Proof.
  assert (Undef ∈ [Obj ∅; Undef]) as H by in_list.
  split; [exact H|].
  exact (proj2 (proj1 (raises_iff_undefined
                         (handleGenerateData [Obj ∅; Undef] initial_state))) H).
Defined.

(** X16: in src/unnamed/part_000 an edit that skips past the end of
    the collection leaves a hole at the first free index; the next
    edit anywhere else copies the holes as undefined elements, and
    after it both the view and the export raise a [TypeError]. *)
Theorem gap_edit_breaks_render (st st1 st2 : state) (i j : nat) (c d : string) (v w : value) :
  (length (currentData st) < i)%nat ->
  j <> length (currentData st) ->
  handleCellEdit UnnamedPart000 i c v st = Ok st1 ->
  handleCellEdit UnnamedPart000 j d w st1 = Ok st2 ->
  currentData st1 !! length (currentData st) = Some Hole /\
  currentData st2 !! length (currentData st) = Some Undef /\
  filteredData st2 = Throw TypeError /\
  booksToCSV (currentData st2) = Throw TypeError.
Proof.
  intros Hi Hj H1 H2.
  destruct (edit_result _ _ _ _ _ _ H1) as [-> _].
  destruct (edit_result _ _ _ _ _ _ H2) as [-> _]. simpl.
  set (n := length (currentData st)).
  assert (forall x, arr_set i x (spread_array (currentData st)) !! n = Some Hole) as Hhole.
  { intros x. rewrite lookup_arr_set, length_spread.
    rewrite decide_False by lia. rewrite decide_False by lia. by rewrite decide_True by lia. }
  assert (forall x y, arr_set j y (spread_array (arr_set i x (spread_array (currentData st))))
                        !! n = Some Undef) as Hundef.
  { intros x y. rewrite lookup_arr_set, length_spread, length_arr_set, length_spread.
    rewrite decide_False by done. rewrite decide_True by lia.
    unfold spread_array at 1. by rewrite list_lookup_fmap, Hhole. }
  split; [apply Hhole|]. split; [apply Hundef|].
  assert (Undef ∈ arr_set j (Obj (<[d := w]> (spread_obj
             (arr_get (arr_set i (Obj (<[c := v]> (spread_obj (arr_get (currentData st) i))))
                               (spread_array (currentData st))) j))))
            (spread_array (arr_set i (Obj (<[c := v]> (spread_obj (arr_get (currentData st) i))))
                                   (spread_array (currentData st))))) as Hin
    by (eapply list_elem_of_lookup_2; apply Hundef).
  split; [by apply filteredData_undef|].
  unfold booksToCSV. by rewrite csv_lines_undef.
Qed.

Lemma gap_edit_breaks_render_witness :
  exists st1 st2,
    (length (currentData sample_session) < 5)%nat /\
    0%nat <> length (currentData sample_session) /\
    handleCellEdit UnnamedPart000 5 "Title" (VStr "Z") sample_session = Ok st1 /\
    handleCellEdit UnnamedPart000 0 "Title" (VStr "Y") st1 = Ok st2 /\
    filteredData st2 = Throw TypeError.
Proof.
  assert (length (currentData sample_session) < 5)%nat as Hi by (vm_compute; lia).
  assert (0%nat <> length (currentData sample_session)) as Hj by (vm_compute; lia).
  destruct (edit_succeeds UnnamedPart000 sample_session 5 "Title" (VStr "Z")) as [st1 H1];
    [done|].
  destruct (edit_succeeds UnnamedPart000 st1 0 "Title" (VStr "Y")) as [st2 H2]; [done|].
  exists st1, st2. split; [exact Hi|]. split; [exact Hj|]. split; [exact H1|].
  split; [exact H2|].
  exact (proj1 (proj2 (proj2 (gap_edit_breaks_render sample_session st1 st2 5 0
                                 "Title" "Title" (VStr "Z") (VStr "Y") Hi Hj H1 H2)))).
Defined.

(** ** The view right after an upload *)

Lemma year_test_parsed_row (st : state) (i : nat) (r : raw_row) :
  yearRange st = {| ymin := 0; ymax := 9999 |} ->
  stage_keeps st YearFilter (parsed_row i r) = year_in_default_range r.
Proof.
  intros Hy. unfold stage_keeps, year_in_default_range. rewrite Hy.
  destruct (parsed_row_fields i r) as (_ & _ & _ & _ & -> & _). done.
Qed.

(** X17: right after an upload, under the default filters, the view
    holds the decoded records whose year lies between 0 and 9999, in
    file order; a row whose year is absent or does not parse is
    decoded to year 0 and is shown. *)
Theorem view_after_upload (data : list raw_row) :
  filteredData (handleFileUpload_complete data initial_state) =
    Ok (Obj <$> List.filter (stage_keeps initial_state YearFilter) (imap parsed_row data)) /\
  (forall i r, stage_keeps initial_state YearFilter (parsed_row i r)
               = year_in_default_range r) /\
  (forall r, parseInt (raw_get r "PublishedYear") = None -> year_in_default_range r = true).
Proof.
  split; [|split].
  - rewrite filteredData_stages. simpl currentData. rewrite parsedData_objects.
    unfold source_order. cbn [run_stages run_stage].
    change (textStage _ ?a) with (Ok a : outcome array). simpl.
    change (genreStage _ ?a) with (Ok a : outcome array). simpl.
    unfold yearStage.
    rewrite (js_filter_dense _ (stage_keeps initial_state YearFilter)) by done.
    simpl. done.
  - intros i r. by apply year_test_parsed_row.
  - intros r Hr. unfold year_in_default_range, parseInt_or. by rewrite Hr.
Qed.


Lemma view_after_upload_witness :
  parseInt (raw_get (raw "Dune" "Herbert" "Fantasy" "n/a" "111") "PublishedYear") = None /\
  year_in_default_range (raw "Dune" "Herbert" "Fantasy" "n/a" "111") = true.
Proof.
  assert (parseInt (raw_get (raw "Dune" "Herbert" "Fantasy" "n/a" "111") "PublishedYear")
          = None) as H by (vm_compute; reflexivity).
  split; [exact H|].
  exact (proj2 (proj2 (view_after_upload [])) _ H).
Defined.

(** ** Genre list and year bounds *)

Lemma column_values_objects (k : string) (rows : list row) :
  column_values k (Obj <$> rows) = Ok ((fun r => get r k) <$> rows).
Proof.
  induction rows as [|r rows IH]; [done|]. rewrite !fmap_cons. simpl. by rewrite IH.
Qed.

Lemma elem_of_list_filter {A : Type} (p : A -> bool) (l : list A) (x : A) :
  x ∈ List.filter p l <-> x ∈ l /\ p x = true.
Proof. rewrite !list_elem_of_In. apply filter_In. Qed.

Lemma distinct_elem (l : list value) (x : value) : x ∈ distinct l <-> x ∈ l.
Proof.
  induction l as [|y l IH]; [done|]. simpl.
  rewrite !elem_of_cons, elem_of_list_filter, IH.
  destruct (decide (x = y)) as [->|Hne]; [tauto|].
  rewrite negb_true_iff, bool_decide_eq_false. tauto.
Qed.

Lemma NoDup_list_filter {A : Type} (p : A -> bool) (l : list A) :
  NoDup l -> NoDup (List.filter p l).
Proof.
  intros Hl. by apply (sublist_NoDup (List.filter p l) l Hl), list_filter_sublist.
Qed.

Lemma distinct_NoDup (l : list value) : NoDup (distinct l).
Proof.
  induction l as [|y l IH]; [constructor|]. simpl. constructor.
  - rewrite elem_of_list_filter, negb_true_iff, bool_decide_eq_false. tauto.
  - by apply NoDup_list_filter.
Qed.

Lemma default_compare_order (x y : value) :
  (~ 0 < default_compare x y -> String.le (ToString x) (ToString y)) /\
  (0 < default_compare x y -> String.le (ToString y) (ToString x)).
Proof.
  unfold default_compare.
  destruct (String.ltb (ToString x) (ToString y)) eqn:Hxy,
           (String.ltb (ToString y) (ToString x)) eqn:Hyx; split; intros H;
    try lia; auto using string_not_ltb_le, string_ltb_le.
Qed.

(** X18: on a collection of objects the genre list offered by the
    genre selector has no duplicates, is sorted by the text of its
    entries, and holds exactly the truthy values found under Genre: an
    empty or absent genre is never offered. *)
Theorem genres_spec (st : state) (rows : list row) :
  currentData st = Obj <$> rows ->
  exists gs,
    genres st = Ok gs /\
    NoDup gs /\
    StronglySorted (fun x y => String.le (ToString x) (ToString y)) gs /\
    forall g, g ∈ gs <-> truthy g = true /\ exists r, r ∈ rows /\ get r "Genre" = g.
Proof.
  intros Hcur. unfold genres. rewrite Hcur, column_values_objects. simpl.
  eexists. split; [done|]. split; [|split].
  - rewrite sort_perm. apply distinct_NoDup.
  - apply (sort_sorted _ (fun _ => True)).
    + intros x y z _ _ _ H1 H2. by etransitivity.
    + intros x y _ _. apply default_compare_order.
    + intros x y _ _. apply default_compare_order.
    + by apply Forall_forall.
  - intros g. rewrite sort_perm, distinct_elem, elem_of_list_filter, list_elem_of_fmap.
    split.
    + intros [(r & -> & Hr) Ht]. split; [done|]. by exists r.
    + intros [Ht (r & Hr & <-)]. split; [|done]. by exists r.
Qed.

Lemma genres_spec_witness :
  currentData sample_session = Obj <$> sample_books /\
  exists gs, genres sample_session = Ok gs /\ NoDup gs.
Proof.
  assert (currentData sample_session = Obj <$> sample_books) as H
    by (vm_compute; reflexivity).
  split; [exact H|].
  destruct (genres_spec sample_session sample_books H) as (gs & Hg & Hn & _).
  exists gs. split; [exact Hg|exact Hn].
Defined.

Lemma Math_min_numbers (z : Z) (zs : list Z) :
  exists lo, Math_min (VNum z) (VNum <$> zs) = Some lo /\
    lo ∈ z :: zs /\ Forall (fun y => lo <= y) (z :: zs).
Proof.
  revert z. induction zs as [|y zs IH]; intros z.
  - exists z. simpl. split; [done|]. split; [by left|]. repeat constructor. lia.
  - destruct (IH y) as (lo & Hlo & Hin & Hall). rewrite fmap_cons. simpl.
    rewrite Hlo. simpl. exists (Z.min z lo). split; [done|]. split.
    + destruct (Z.min_spec z lo) as [[_ ->]|[_ ->]]; [by left|by right].
    + constructor; [lia|]. eapply Forall_impl; [exact Hall|]. simpl. lia.
Qed.

Lemma Math_max_numbers (z : Z) (zs : list Z) :
  exists hi, Math_max (VNum z) (VNum <$> zs) = Some hi /\
    hi ∈ z :: zs /\ Forall (fun y => y <= hi) (z :: zs).
Proof.
  revert z. induction zs as [|y zs IH]; intros z.
  - exists z. simpl. split; [done|]. split; [by left|]. repeat constructor. lia.
  - destruct (IH y) as (hi & Hhi & Hin & Hall). rewrite fmap_cons. simpl.
    rewrite Hhi. simpl. exists (Z.max z hi). split; [done|]. split.
    + destruct (Z.max_spec z hi) as [[_ ->]|[_ ->]]; [by right|by left].
    + constructor; [lia|]. eapply Forall_impl; [exact Hall|]. simpl. lia.
Qed.

Lemma positive_years (zs : list Z) :
  List.filter (fun year => js_gt year (VNum 0)) (VNum <$> zs)
  = VNum <$> List.filter (fun z => 0 <? z) zs.
Proof.
  induction zs as [|z zs IH]; [done|]. rewrite fmap_cons. cbn [List.filter].
  rewrite IH. change (js_gt (VNum z) (VNum 0)) with (0 <? z). by destruct (0 <? z).
Qed.

(** X19: on a collection of objects whose years are numbers
    [yearRangeValues] returns the least and the greatest year above 0,
    both years of the collection; years that are 0 or negative (a
    missing year is decoded to 0) do not count, and when no year is
    above 0 the bounds are 0 and 2023. *)
Theorem yearRangeValues_spec (st : state) (years : list Z) (rows : list row) :
  currentData st = Obj <$> rows ->
  (fun r => get r "PublishedYear") <$> rows = VNum <$> years ->
  exists lo hi,
    yearRangeValues st = Ok (Some lo, Some hi) /\
    ((forall y, y ∈ years -> y <= 0) -> lo = 0 /\ hi = 2023) /\
    ((exists y, y ∈ years /\ 0 < y) ->
       lo ∈ years /\ hi ∈ years /\ 0 < lo /\
       forall y, y ∈ years -> 0 < y -> lo <= y <= hi).
Proof.
  intros Hcur Hyears. unfold yearRangeValues.
  rewrite Hcur, column_values_objects, Hyears. simpl. rewrite positive_years.
  destruct (List.filter (fun z => 0 <? z) years) as [|z zs] eqn:Hf.
  - exists 0, 2023. split; [done|]. split; [done|].
    intros (y & Hy & Hpos). exfalso.
    assert (y ∈ List.filter (fun z => 0 <? z) years) as Hin
      by (apply elem_of_list_filter; split; [done|by apply Z.ltb_lt]).
    rewrite Hf in Hin. by apply elem_of_nil in Hin.
  - rewrite fmap_cons.
    destruct (Math_min_numbers z zs) as (lo & Hlo & Hlin & Hlall).
    destruct (Math_max_numbers z zs) as (hi & Hhi & Hhin & Hhall).
    exists lo, hi. rewrite Hlo, Hhi. split; [done|].
    rewrite <- Hf in Hlin, Hhin, Hlall, Hhall.
    apply elem_of_list_filter in Hlin as [Hlin Hlpos], Hhin as [Hhin _].
    apply Z.ltb_lt in Hlpos.
    rewrite Forall_forall in Hlall, Hhall. split.
    + intros Hnone. specialize (Hnone lo Hlin). lia.
    + intros _. repeat split; try done.
      * apply Hlall, elem_of_list_filter. split; [done|by apply Z.ltb_lt].
      * apply Hhall, elem_of_list_filter. split; [done|by apply Z.ltb_lt].
Qed.

Lemma yearRangeValues_spec_witness :
  currentData sample_session = Obj <$> sample_books /\
  (fun r => get r "PublishedYear") <$> sample_books = VNum <$> [1965; 1815; 1922] /\
  exists lo hi, yearRangeValues sample_session = Ok (Some lo, Some hi).
Proof.
  assert (currentData sample_session = Obj <$> sample_books) as H1
    by (vm_compute; reflexivity).
  assert ((fun r => get r "PublishedYear") <$> sample_books = VNum <$> [1965; 1815; 1922])
    as H2 by (vm_compute; reflexivity).
  split; [exact H1|]. split; [exact H2|].
  destruct (yearRangeValues_spec sample_session [1965; 1815; 1922] sample_books H1 H2)
    as (lo & hi & H & _).
  by exists lo, hi.
Defined.

(** ** The view in closed form *)

Lemma filteredData_dense (st : state) (rows : list row) :
  currentData st = Obj <$> rows ->
  filteredData st = Ok (sortStage st (Obj <$> filtered_rows st rows)).
Proof.
  intros Hcur. rewrite filteredData_stages, Hcur. unfold source_order.
  rewrite (run_stages_app st [TextFilter; GenreFilter; YearFilter] [EditedFilter]).
  rewrite run_stages_dense
    by (rewrite !not_elem_of_cons; repeat split; [discriminate..|apply not_elem_of_nil]).
  simpl. rewrite editedStage_dense. simpl. unfold filtered_rows.
  by destruct (showOnlyEdited st).
Qed.





(** ** Sorting by header clicks *)

(** X21: a click on a column header makes that column the sort key;
    the direction is ascending unless the column already was the key
    with ascending direction, so repeated clicks on one header
    alternate the direction; the click changes nothing else, and on a
    collection of objects the view after it is a permutation of the
    view before it. *)
Theorem handleSort_spec (k : string) (st : state) (rows : list row) :
  currentData st = Obj <$> rows ->
  key (sortConfig (handleSort k st)) = Some k /\
  (dir (sortConfig (handleSort k st)) = desc <->
     key (sortConfig st) = Some k /\ dir (sortConfig st) = asc) /\
  dir (sortConfig (handleSort k (handleSort k st))) <> dir (sortConfig (handleSort k st)) /\
  (originalData (handleSort k st), currentData (handleSort k st), edits (handleSort k st),
   currentPage (handleSort k st))
    = (originalData st, currentData st, edits st, currentPage st) /\
  exists before after,
    filteredData st = Ok (Obj <$> before) /\
    filteredData (handleSort k st) = Ok (Obj <$> after) /\
    after ≡ₚ before.
Proof.
  intros Hcur.
  assert (dir (sortConfig (handleSort k st)) = desc <->
          key (sortConfig st) = Some k /\ dir (sortConfig st) = asc) as Hdir.
  { simpl. destruct (key (sortConfig st)) as [k'|], (dir (sortConfig st)); simpl;
      try (split; [done|by intros [? ?]]).
    destruct (String.eqb_spec k' k) as [->|Hne]; split; try done.
    intros [[= ->] _]. done. }
  split; [done|]. split; [exact Hdir|]. split; [|split; [done|]].
  - simpl. rewrite String.eqb_refl.
    destruct (key (sortConfig st)) as [k'|], (dir (sortConfig st)); simpl; try done.
    by destruct (String.eqb k' k).
  - rewrite (filteredData_dense st rows Hcur).
    rewrite (filteredData_dense (handleSort k st) rows Hcur).
    change (filtered_rows (handleSort k st) rows) with (filtered_rows st rows).
    destruct (sortStage_dense st (filtered_rows st rows)) as (v1 & -> & Hp1 & _).
    destruct (sortStage_dense (handleSort k st) (filtered_rows st rows)) as (v2 & -> & Hp2 & _).
    exists v1, v2. split; [done|]. split; [done|]. by rewrite Hp1, Hp2.
Qed.

Lemma handleSort_spec_witness :
  currentData sample_session = Obj <$> sample_books /\
  key (sortConfig (handleSort "Title" sample_session)) = Some "Title".
Proof.
  assert (currentData sample_session = Obj <$> sample_books) as H
    by (vm_compute; reflexivity).
  split; [exact H|].
  exact (proj1 (handleSort_spec "Title" sample_session sample_books H)).
Defined.

(** ** Export and import again *)

(** X22: whatever the values of an exported collection of objects are,
    importing the exported text gives as many records, in order, with
    [id] the index plus one, every text field the string [String]
    makes of the exported value, and the year [parseInt] of that
    string, or 0. *)
Theorem reimport_stringifies (rows : list row) :
  exists text,
    booksToCSV (Obj <$> rows) = Ok text /\
    length (decode text) = length rows /\
    forall (i : nat) (r : row),
      rows !! i = Some r ->
      exists r',
        decode text !! i = Some (Obj r') /\
        get r' "id" = VNum (Z.of_nat i + 1) /\
        (forall c, c ∈ text_columns -> get r' c = VStr (ToString (get r c))) /\
        get r' "PublishedYear"
          = VNum (parseInt_or (VStr (ToString (get r "PublishedYear"))) 0).
Proof.
  destruct (Papa_parse_booksToCSV rows) as (text & Htext & Hparse).
  exists text. split; [done|]. unfold decode. rewrite Hparse. split.
  - unfold parsedData. by rewrite length_imap, length_fmap.
  - intros i r Hr. rewrite parsedData_lookup, list_lookup_fmap, Hr.
    exists (parsed_row i (list_to_map (zip columns (field_texts r)))).
    split; [reflexivity|].
    destruct (parsed_row_fields i (list_to_map (zip columns (field_texts r))))
      as (Hid & H1 & H2 & H3 & H4 & H5).
    split; [done|]. split.
    + intros c Hc. unfold text_columns in Hc.
      apply elem_of_cons in Hc as [->|Hc].
      { rewrite H1, raw_get_written by in_list. apply or_empty_string. }
      apply elem_of_cons in Hc as [->|Hc].
      { rewrite H2, raw_get_written by in_list. apply or_empty_string. }
      apply elem_of_cons in Hc as [->|Hc].
      { rewrite H3, raw_get_written by in_list. apply or_empty_string. }
      apply elem_of_cons in Hc as [->|Hc].
      { rewrite H5, raw_get_written by in_list. apply or_empty_string. }
      by apply elem_of_nil in Hc.
    + rewrite H4. by rewrite raw_get_written by in_list.
Qed.

Lemma reimport_stringifies_witness :
  tricky_books !! 1%nat = Some (book 2 "" "Austen" "Classic" (VNum (-44)) "222") /\
  exists text, booksToCSV (Obj <$> tricky_books) = Ok text /\
               length (decode text) = length tricky_books.
Proof.
  split; [reflexivity|].
  destruct (reimport_stringifies tricky_books) as (text & Ht & Hl & _).
  exists text. split; [exact Ht|exact Hl].
Defined.

(** ** What the export depends on *)

Lemma field_texts_eq (r r' : row) :
  (forall c, c ∈ columns -> ToString (get r c) = ToString (get r' c)) ->
  field_texts r = field_texts r'.
Proof.
  intros H. unfold field_texts, columns. simpl.
  rewrite (H "Title"), (H "Author"), (H "Genre"), (H "PublishedYear"), (H "ISBN")
    by in_list. done.
Qed.

Lemma field_texts_inv (r r' : row) :
  field_texts r = field_texts r' ->
  forall c, c ∈ columns -> ToString (get r c) = ToString (get r' c).
Proof.
  unfold field_texts, columns. simpl. intros [= H1 H2 H3 H4 H5] c Hc.
  repeat (apply elem_of_cons in Hc as [->|Hc]; [done|]).
  by apply elem_of_nil in Hc.
Qed.

(** X23: the exported text is determined by, and determines, the
    strings of the five column values of the records, in order: two
    collections of objects export to the same text exactly when they
    have the same length and agree, record by record, on [String] of
    each column.  The [id] and any other property never reach the
    text, and no two different tables share a text. *)
Theorem export_faithful (rows1 rows2 : list row) :
  booksToCSV (Obj <$> rows1) = booksToCSV (Obj <$> rows2) <->
  Forall2 (fun r r' => forall c, c ∈ columns -> ToString (get r c) = ToString (get r' c))
          rows1 rows2.
Proof.
  split.
  - intros Heq.
    destruct (scan_booksToCSV rows1) as (t1 & Ht1 & Hs1).
    destruct (scan_booksToCSV rows2) as (t2 & Ht2 & Hs2).
    rewrite Ht1, Ht2 in Heq. injection Heq as ->. rewrite Hs1 in Hs2.
    injection Hs2 as Hs. clear Ht1 Ht2 Hs1.
    revert rows2 Hs. induction rows1 as [|r rows1 IH]; intros [|r' rows2] Hs.
    + constructor.
    + by rewrite fmap_cons in Hs.
    + by rewrite fmap_cons in Hs.
    + rewrite !fmap_cons in Hs.
      assert (field_texts r = field_texts r' /\
              field_texts <$> rows1 = field_texts <$> rows2) as [Hr Hrest]
        by (split; congruence).
      constructor; [exact (field_texts_inv r r' Hr)|by apply IH].
  - intros Hall.
    assert (csv_line <$> rows1 = csv_line <$> rows2) as Hlines.
    { induction Hall as [|r r' rows1 rows2 Hr _ IH]; [done|].
      rewrite !fmap_cons, IH. f_equal.
      rewrite !csv_line_quoted. by rewrite (field_texts_eq r r'). }
    unfold booksToCSV. by rewrite !csv_lines_objects, Hlines.
Qed.

Lemma export_faithful_witness :
  Forall2 (fun r r' => forall c, c ∈ columns -> ToString (get r c) = ToString (get r' c))
          [book 1 "Dune" "Herbert" "Fantasy" (VNum 1965) "111"]
          [book 7 "Dune" "Herbert" "Fantasy" (VStr "1965") "111"] /\
  booksToCSV (Obj <$> [book 1 "Dune" "Herbert" "Fantasy" (VNum 1965) "111"])
  = booksToCSV (Obj <$> [book 7 "Dune" "Herbert" "Fantasy" (VStr "1965") "111"]).
Proof.
  assert (Forall2 (fun r r' => forall c, c ∈ columns ->
                     ToString (get r c) = ToString (get r' c))
            [book 1 "Dune" "Herbert" "Fantasy" (VNum 1965) "111"]
            [book 7 "Dune" "Herbert" "Fantasy" (VStr "1965") "111"]) as H.
  { repeat constructor. intros c Hc. unfold columns in Hc.
    repeat (apply elem_of_cons in Hc as [->|Hc]; [vm_compute; reflexivity|]).
    by apply elem_of_nil in Hc. }
  split; [exact H|]. exact (proj2 (export_faithful _ _) H).
Defined.

(** ** Typing into the search box *)






(** ** Sessions of src/src/App.js never hold anything but records *)

Lemma appjs_all_objects (data : list raw_row) (st0 st : state) :
  evolves SrcAppJs (handleFileUpload_complete data st0) st ->
  originalData st = parsedData data /\
  exists rows, currentData st = Obj <$> rows /\ length rows = length data.
Proof.
  induction 1 as [|st1 st2 i c v _ IH Hed|st1 _ IH].
  - split; [done|]. simpl. rewrite parsedData_objects. eexists. split; [done|].
    by rewrite length_imap.
  - destruct IH as (Ho & rows & Hcur & Hlen).
    destruct (edit_result SrcAppJs st1 st2 i c v Hed) as [-> Hsome].
    simpl. split; [done|]. destruct (Hsome eq_refl) as [o Hoi].
    assert (i < length rows)%nat as Hi.
    { rewrite Ho in Hoi. unfold arr_get in Hoi.
      destruct (parsedData data !! i) eqn:Hp; [|done].
      apply lookup_lt_Some in Hp. unfold parsedData in Hp. rewrite length_imap in Hp. lia. }
    rewrite Hcur, spread_array_objects.
    rewrite arr_set_in_range by (by rewrite length_fmap).
    exists (<[i := <[c := v]> (spread_obj (arr_get (Obj <$> rows) i))]> rows).
    split; [by rewrite list_fmap_insert|by rewrite length_insert].
  - destruct IH as (Ho & rows & Hcur & Hlen). split; [done|]. simpl.
    rewrite Ho, parsedData_objects, spread_array_objects.
    eexists. split; [done|]. by rewrite length_imap.
Qed.

(** X25: in src/src/App.js, after an upload and any edits that succeed
    and resets, the current collection holds one object per uploaded
    row and nothing else, so the view can be computed and the
    collection exported without an error. *)
Theorem appjs_session_renders (data : list raw_row) (st0 st : state) :
  evolves SrcAppJs (handleFileUpload_complete data st0) st ->
  exists rows view text,
    currentData st = Obj <$> rows /\
    length rows = length data /\
    filteredData st = Ok (Obj <$> view) /\
    booksToCSV (currentData st) = Ok text.
Proof.
  intros Hev. destruct (appjs_all_objects data st0 st Hev) as (_ & rows & Hcur & Hlen).
  exists rows. rewrite (filteredData_dense st rows Hcur).
  destruct (sortStage_dense st (filtered_rows st rows)) as (view & -> & _).
  exists view. rewrite Hcur. unfold booksToCSV. rewrite csv_lines_objects. simpl.
  eexists. by repeat split.
Qed.

Lemma appjs_session_renders_witness :
  evolves SrcAppJs (handleFileUpload_complete sample_upload initial_state)
          (handleResetEdits (handleFileUpload_complete sample_upload initial_state)) /\
  exists rows view text,
    currentData (handleResetEdits (handleFileUpload_complete sample_upload initial_state))
      = Obj <$> rows /\
    length rows = length sample_upload /\
    filteredData (handleResetEdits (handleFileUpload_complete sample_upload initial_state))
      = Ok (Obj <$> view) /\
    booksToCSV (currentData (handleResetEdits
                               (handleFileUpload_complete sample_upload initial_state)))
      = Ok text.
Proof.
  assert (evolves SrcAppJs (handleFileUpload_complete sample_upload initial_state)
            (handleResetEdits (handleFileUpload_complete sample_upload initial_state)))
    as Hev by (apply evolves_reset, evolves_here).
  split; [exact Hev|].
  exact (appjs_session_renders sample_upload initial_state _ Hev).
Defined.

(** ** Import, export, import *)

